(** * Dispatcher of WhatsApp notifications: the send loop of [src/index.js]

    A shallow embedding of [gerarNumerosAlternativos], [delay],
    [delayAleatorio] and [loopDeEnvio], and the properties of the dispatch
    loop, of the number normalizer and of the jittered delay.

    Conventions of the embedding:
    - a JavaScript string is a [string]; the characters that matter to the
      code are the ASCII digits, and every other character (a byte of a
      multi-byte character included) is a non-digit for the class [\D];
    - a JavaScript number is an IEEE 754 binary64 value, a [spec_float]
      with precision 53 and maximal exponent 1024;
    - the collaborators (the Supabase client, the WhatsApp client, the file
      system, the clock and [Math.random]) are an interface [Ambiente] over
      an arbitrary world state; every call is threaded through the world and
      recorded, with its answer, in a trace of [Evento]s;
    - [console] output is not modelled. *)

From Stdlib Require Import List String Ascii ZArith Lia Bool Arith.
From Stdlib Require Import Floats.SpecFloat.
Import ListNotations.

Local Open Scope list_scope.
Local Open Scope string_scope.

(** ** JavaScript strings *)

Module JsString.

(** [\d]: the ASCII digits 0 to 9. *)
Definition digito (c : ascii) : bool :=
  match c with
  | "0" | "1" | "2" | "3" | "4" | "5" | "6" | "7" | "8" | "9" => true
  | _ => false
  end%char.

(** [\D]: everything else. *)
Definition nao_digito (c : ascii) : bool := negb (digito c).

(** [s.replace(/C/g, por)] for a one-character class [C]: the string is
    scanned from the left and every character of the class is replaced. *)
Fixpoint replace_classe (classe : ascii -> bool) (por : string) (s : string)
  : string :=
  match s with
  | EmptyString => EmptyString
  | String c resto =>
      if classe c then por ++ replace_classe classe por resto
      else String c (replace_classe classe por resto)
  end.

(** [s.slice(inicio, fim)] and [s.slice(inicio)], for indices that are not
    negative. *)
Definition slice (s : string) (inicio fim : nat) : string :=
  substring inicio (fim - inicio) s.

Definition slice_de (s : string) (inicio : nat) : string :=
  substring inicio (length s - inicio) s.

(** [s.startsWith(p)]. *)
Definition startsWith (s p : string) : bool := prefix p s.

End JsString.
Import JsString.

(** ** JavaScript numbers: IEEE 754 binary64 *)

Module JsNumber.

Definition prec : Z := 53.
Definition emax : Z := 1024.

(** The number denoted by an integer literal. *)
Definition Num (z : Z) : spec_float := binary_normalize prec emax z 0 false.

Definition mul : spec_float -> spec_float -> spec_float := SFmul prec emax.
Definition add : spec_float -> spec_float -> spec_float := SFadd prec emax.
Definition sub : spec_float -> spec_float -> spec_float := SFsub prec emax.

(** [Math.floor]: a number whose exponent is not negative is an integer
    already; otherwise the signed mantissa is divided by the power of two,
    rounding down (an arithmetic shift), and the integer is a number again.
    Zeros, infinities and NaN are returned as they are. *)
Definition floor (x : spec_float) : spec_float :=
  match x with
  | S754_finite s m e =>
      if (0 <=? e)%Z then x
      else Num (Z.shiftr (cond_Zopp s (Zpos m)) (- e))
  | _ => x
  end.

(** Equality of representations, and a check of a predicate on the integers
    [z], [z + 1], ... ([n] of them). *)
Definition mesmo (x y : spec_float) : bool :=
  match x, y with
  | S754_zero s1, S754_zero s2 => Bool.eqb s1 s2
  | S754_infinity s1, S754_infinity s2 => Bool.eqb s1 s2
  | S754_nan, S754_nan => true
  | S754_finite s1 m1 e1, S754_finite s2 m2 e2 =>
      Bool.eqb s1 s2 && Pos.eqb m1 m2 && Z.eqb e1 e2
  | _, _ => false
  end.

Fixpoint todos (f : Z -> bool) (n : nat) (z : Z) : bool :=
  match n with
  | O => true
  | S n' => f z && todos f n' (Z.succ z)
  end.

(** What a shift record says of the number [n] it was cut from, [j] bits
    ago: the mantissa is the quotient, and the round bit is set only if the
    remainder is at least half of [2^j]. *)
Definition corte (n : Z) (j : Z) (mrs : shr_record) : Prop :=
  (0 <= shr_m mrs)%Z /\
  (0 <= n - shr_m mrs * 2 ^ j < 2 ^ j)%Z /\
  (shr_r mrs = true -> (2 ^ j <= 2 * (n - shr_m mrs * 2 ^ j))%Z).

(** What [Math.random] promises: a binary64 value [r] with [0 <= r < 1]. *)
Definition unitario (r : spec_float) : bool :=
  valid_binary prec emax r && SFleb (Num 0) r && SFltb r (Num 1).

End JsNumber.

(** ** The number normalizer *)

Definition gerarNumerosAlternativos (telefone : string) : list string :=
  let limpo := replace_classe nao_digito "" telefone in
  if (length limpo <? 10)%nat then []
  else
    let ddd := slice limpo 0 2 in
    let corpo := slice_de limpo 2 in
    let com9 := if startsWith corpo "9" then corpo else "9" ++ corpo in
    let sem9 := if startsWith corpo "9" then slice_de corpo 1 else corpo in
    ["55" ++ ddd ++ sem9; "55" ++ ddd ++ com9].

(** The digit characters of a raw phone string, in order: the vocabulary of
    the properties of the normalizer. *)
Definition digitos (telefone : string) : list ascii :=
  filter digito (list_ascii_of_string telefone).

(** The subscriber digits without one leading mobile-prefix digit 9. *)
Definition sem_nove (corpo : list ascii) : list ascii :=
  match corpo with
  | "9"%char :: resto => resto
  | _ => corpo
  end.

(** ** Data of the collaborators *)

(** A thrown value: an [Error] object with its [message]. *)
Record Erro := { message : string }.

(** The value of a column of a row, as far as the loop tells values apart: a
    string; [null]; [undefined] (the row has no such column); or any other
    value (a number, a boolean, an array, an object), none of which has a
    method [replace]. *)
Inductive Valor : Type :=
| VTexto (s : string)
| VNulo
| VIndefinido
| VOutro.

(** A row of the table [contacts]. The loop reads [id] and [telefone] only;
    the query returns rows with [status = true] and [data_envio] null, and
    nothing makes [telefone] a string. *)
Record Contato := { id : Z; telefone : Valor }.

(** The media attachment built by [MessageMedia.fromFilePath]. *)
Record MessageMedia := { mimetype : string; conteudo : string }.

(** How a call ends: it returns (a promise resolves) or it throws (a promise
    rejects). *)
Inductive Conclusao (A : Type) : Type :=
| Retorna (a : A)
| Lanca (e : Erro).
Arguments Retorna {A} a.
Arguments Lanca {A} e.

(** The object [{ data, error }] a Supabase query resolves to. *)
Record Resposta := { data : option (list Contato); error : option Erro }.

(** The calls to the collaborators, each with how it ended. *)
Inductive Evento : Type :=
| EvSelect (r : Conclusao Resposta)
| EvUpdate (id_contato : Z) (data_envio mensagem : string) (r : Conclusao unit)
| EvGetNumberId (numero : string) (r : Conclusao (option string))
| EvSendMessage (chatId : string) (media : MessageMedia) (caption : string)
    (r : Conclusao unit)
| EvFromFilePath (caminho : string) (r : Conclusao MessageMedia)
| EvReadFileSync (caminho : string) (r : Conclusao string)
| EvDelay (ms : spec_float).

(** The collaborators over a world state [W]. A call may change the world
    and its answer may depend on it. The value an [update] resolves to is
    discarded by the loop and is not part of the interface. *)
Record Ambiente (W : Type) : Type := {
  amb_select : W -> Conclusao Resposta * W;
  amb_update : Z -> string -> string -> W -> Conclusao unit * W;
  amb_getNumberId : string -> W -> Conclusao (option string) * W;
  amb_sendMessage :
    string -> MessageMedia -> string -> W -> Conclusao unit * W;
  amb_fromFilePath : string -> W -> Conclusao MessageMedia * W;
  amb_readFileSync : string -> W -> Conclusao string * W;
  amb_toISOString : W -> string * W;
  amb_random : W -> spec_float * W;
  amb_setTimeout : spec_float -> W -> W
}.
Arguments amb_select {W}.
Arguments amb_update {W}.
Arguments amb_getNumberId {W}.
Arguments amb_sendMessage {W}.
Arguments amb_fromFilePath {W}.
Arguments amb_readFileSync {W}.
Arguments amb_toISOString {W}.
Arguments amb_random {W}.
Arguments amb_setTimeout {W}.

(** ** The monad of the loop: world, exceptions and the trace of calls *)

Definition M (W A : Type) : Type := W -> Conclusao A * W * list Evento.

Definition ret {W A} (a : A) : M W A := fun w => (Retorna a, w, []).

Definition bind {W A B} (m : M W A) (f : A -> M W B) : M W B :=
  fun w =>
    match m w with
    | (Retorna a, w1, t1) =>
        let '(r, w2, t2) := f a w1 in (r, w2, (t1 ++ t2)%list)
    | (Lanca e, w1, t1) => (Lanca e, w1, t1)
    end.

Definition throw {W A} (e : Erro) : M W A := fun w => (Lanca e, w, []).

(** [try { m } catch (err) { h err }]. *)
Definition try_catch {W A} (m : M W A) (h : Erro -> M W A) : M W A :=
  fun w =>
    match m w with
    | (Retorna a, w1, t1) => (Retorna a, w1, t1)
    | (Lanca e, w1, t1) =>
        let '(r, w2, t2) := h e w1 in (r, w2, (t1 ++ t2)%list)
    end.

(** A computation of the script itself: no collaborator is called. *)
Definition avaliar {W A} (r : Conclusao A) : M W A := fun w => (r, w, []).

(** A call that may throw, recorded with its answer. *)
Definition chamada {W A} (f : W -> Conclusao A * W)
  (ev : Conclusao A -> Evento) : M W A :=
  fun w => let '(r, w1) := f w in (r, w1, [ev r]).

(** A call that cannot throw and is not recorded. *)
Definition leitura {W A} (f : W -> A * W) : M W A :=
  fun w => let '(a, w1) := f w in (Retorna a, w1, []).

Declare Scope js_scope.
Delimit Scope js_scope with js.
Notation "x <- m ;; k" := (bind m (fun x => k))
  (at level 100, m at next level, right associativity) : js_scope.
Notation "m ;; k" := (bind m (fun _ => k))
  (at level 100, right associativity) : js_scope.
Local Open Scope js_scope.

(** What the trace says. *)
Definition escrita (ev : Evento) : bool :=
  match ev with EvUpdate _ _ _ _ => true | _ => false end.

Definition chamada_de_entrega (ev : Evento) : bool :=
  match ev with
  | EvGetNumberId _ _ | EvSendMessage _ _ _ _ => true
  | _ => false
  end.

Definition envio (ev : Evento) : bool :=
  match ev with EvSendMessage _ _ _ _ => true | _ => false end.

Definition envio_entregue (ev : Evento) : bool :=
  match ev with EvSendMessage _ _ _ (Retorna _) => true | _ => false end.

Definition escritas (t : list Evento) : list Evento := filter escrita t.

(** The contacts written to, in the order of the writes. *)
Definition ids_escritos (t : list Evento) : list Z :=
  flat_map (fun ev => match ev with
                      | EvUpdate i _ _ _ => [i]
                      | _ => []
                      end) t.

(** [getNumberId] rejects a candidate: it resolves to a falsy value or it
    throws. *)
Definition rejeita (v : Conclusao (option string)) : bool :=
  match v with
  | Retorna (Some _) => false
  | _ => true
  end.

(** How a statement of the candidate loop ends. *)
Inductive Controle := Continue | Break.

Definition MENSAGEM_ERRO : string :=
  "Erro: número inválido ou não encontrado no WhatsApp".

Definition TYPE_ERROR_LENGTH : Erro :=
  {| message := "Cannot read properties of null (reading 'length')" |}.

(** The [TypeError]s of [telefone.replace(...)] when [telefone] is [null],
    when it is [undefined] and when it is a value without that method. *)
Definition TYPE_ERROR_REPLACE_NULO : Erro :=
  {| message := "Cannot read properties of null (reading 'replace')" |}.

Definition TYPE_ERROR_REPLACE_INDEFINIDO : Erro :=
  {| message := "Cannot read properties of undefined (reading 'replace')" |}.

Definition TYPE_ERROR_REPLACE : Erro :=
  {| message := "telefone.replace is not a function" |}.

(** The call [gerarNumerosAlternativos(v)] on any value: the first statement
    of the function calls [replace] on its argument. *)
Definition gerarNumerosAlternativosDe (v : Valor) : Conclusao (list string) :=
  match v with
  | VTexto s => Retorna (gerarNumerosAlternativos s)
  | VNulo => Lanca TYPE_ERROR_REPLACE_NULO
  | VIndefinido => Lanca TYPE_ERROR_REPLACE_INDEFINIDO
  | VOutro => Lanca TYPE_ERROR_REPLACE
  end.

(** The candidates of a contact: none when the call throws. *)
Definition candidatos (contato : Contato) : list string :=
  match gerarNumerosAlternativosDe (telefone contato) with
  | Retorna tentativas => tentativas
  | Lanca _ => []
  end.

(** The two content files, relative to the directory of the script. *)
Definition imagemPath : string := "conteudo/Picanha.png".
Definition mensagemPath : string := "conteudo/mensagem.txt".

(** The value of [tempo] in [delayAleatorio] when [Math.random()] is [r]. *)
Definition tempo (r : spec_float) : spec_float :=
  JsNumber.add
    (JsNumber.floor
       (JsNumber.mul r
          (JsNumber.add
             (JsNumber.sub (JsNumber.Num 30000) (JsNumber.Num 10000))
             (JsNumber.Num 1))))
    (JsNumber.Num 10000).

Section Loop.

Context {W : Type} (amb : Ambiente W).

(** [supabase.from('contacts').select('*').eq('status', true)
    .is('data_envio', null)]. *)
Definition select_pendentes : M W Resposta :=
  chamada (amb_select amb) EvSelect.

(** [supabase.from('contacts').update({ data_envio: new Date().toISOString(),
    mensagem }).eq('id', id)]: the object literal is evaluated, clock
    included, before the request is made. *)
Definition update_contato (id_contato : Z) (mensagem : string) : M W unit :=
  data_envio <- leitura (amb_toISOString amb) ;;
  chamada (amb_update amb id_contato data_envio mensagem)
    (EvUpdate id_contato data_envio mensagem).

Definition getNumberId (numero : string) : M W (option string) :=
  chamada (amb_getNumberId amb numero) (EvGetNumberId numero).

Definition sendMessage (chatId : string) (media : MessageMedia)
  (caption : string) : M W unit :=
  chamada (amb_sendMessage amb chatId media caption)
    (EvSendMessage chatId media caption).

(** [delay(ms)]: a promise that resolves after [ms] milliseconds, awaited. *)
Definition delay (ms : spec_float) : M W unit :=
  fun w => (Retorna tt, amb_setTimeout amb ms w, [EvDelay ms]).

Definition delayAleatorio : M W unit :=
  r <- leitura (amb_random amb) ;;
  delay (tempo r).

(** The body of [for (const numero of tentativas)]: the [try] block ends in
    [continue] or, after [enviado = true], in [break]; the [catch] block falls
    through to the next candidate. *)
Definition tentarNumero (contato : Contato) (imagem : MessageMedia)
  (legenda : string) (numero : string) : M W Controle :=
  try_catch
    (valido <- getNumberId numero ;;
     match valido with
     | None => ret Continue
     | Some _ =>
         let numeroWhatsApp := numero ++ "@c.us" in
         sendMessage numeroWhatsApp imagem legenda ;;
         update_contato (id contato) legenda ;;
         ret Break
     end)
    (fun _ => ret Continue).

(** The loop over the candidates; the result is the flag [enviado]. *)
Fixpoint tentarNumeros (contato : Contato) (imagem : MessageMedia)
  (legenda : string) (tentativas : list string) : M W bool :=
  match tentativas with
  | [] => ret false
  | numero :: resto =>
      c <- tentarNumero contato imagem legenda numero ;;
      match c with
      | Break => ret true
      | Continue => tentarNumeros contato imagem legenda resto
      end
  end.

(** The body of [for (const contato of contatos)]. The call of
    [gerarNumerosAlternativos] is outside the [try] block: when it throws,
    the exception leaves the body. *)
Definition processarContato (imagem : MessageMedia) (legenda : string)
  (contato : Contato) : M W unit :=
  tentativas <- avaliar (gerarNumerosAlternativosDe (telefone contato)) ;;
  enviado <- tentarNumeros contato imagem legenda tentativas ;;
  (if negb enviado then update_contato (id contato) MENSAGEM_ERRO
   else ret tt) ;;
  delayAleatorio.

Fixpoint processarContatos (imagem : MessageMedia) (legenda : string)
  (contatos : list Contato) : M W unit :=
  match contatos with
  | [] => ret tt
  | contato :: resto =>
      processarContato imagem legenda contato ;;
      processarContatos imagem legenda resto
  end.

(** The body of [while (true)]: one poll of the store. *)
Definition iteracao : M W unit :=
  resposta <- select_pendentes ;;
  match error resposta with
  | Some _ => delay (JsNumber.Num 10000)
  | None =>
      match data resposta with
      | None => throw TYPE_ERROR_LENGTH
      | Some [] => delay (JsNumber.Num 30000)
      | Some contatos =>
          imagem <- chamada (amb_fromFilePath amb imagemPath)
                      (EvFromFilePath imagemPath) ;;
          legenda <- chamada (amb_readFileSync amb mensagemPath)
                       (EvReadFileSync mensagemPath) ;;
          processarContatos imagem legenda contatos
      end
  end.

(** [loopDeEnvio]: the loop has no exit, so a run is observed for a number of
    iterations; it stops before that only when an exception escapes. *)
Fixpoint loopDeEnvio (iteracoes : nat) : M W unit :=
  match iteracoes with
  | O => ret tt
  | S n => iteracao ;; loopDeEnvio n
  end.

End Loop.

(** ** A simulated world, for running the loop on concrete inputs *)

Module Simulacao.

(** [contas]: the numbers that have a WhatsApp account; [bloqueados]: the
    numbers a send to which fails; [roteiro_update] and [roteiro_select]: how
    the coming calls to the store end ([true]: the update throws); when a
    script is used up, updates resolve and queries find nothing. *)
Record Mundo := {
  contas : list string;
  bloqueados : list string;
  roteiro_update : list bool;
  roteiro_select : list (Conclusao Resposta);
  sorteio : spec_float
}.

Definition ERRO_REDE : Erro := {| message := "fetch failed" |}.
Definition ERRO_ENVIO : Erro := {| message := "Evaluation failed" |}.

Definition consta (n : string) (l : list string) : bool :=
  existsb (String.eqb n) l.

Definition sim_select (w : Mundo) : Conclusao Resposta * Mundo :=
  match roteiro_select w with
  | [] => (Retorna {| data := Some []; error := None |}, w)
  | r :: rs =>
      (r, {| contas := contas w; bloqueados := bloqueados w;
             roteiro_update := roteiro_update w; roteiro_select := rs;
             sorteio := sorteio w |})
  end.

Definition sim_update (_ : Z) (_ _ : string) (w : Mundo)
  : Conclusao unit * Mundo :=
  match roteiro_update w with
  | [] => (Retorna tt, w)
  | b :: bs =>
      (if b then Lanca ERRO_REDE else Retorna tt,
       {| contas := contas w; bloqueados := bloqueados w;
          roteiro_update := bs; roteiro_select := roteiro_select w;
          sorteio := sorteio w |})
  end.

Definition sim_getNumberId (numero : string) (w : Mundo)
  : Conclusao (option string) * Mundo :=
  (Retorna (if consta numero (contas w) then Some (numero ++ "@c.us")
            else None), w).

Definition sim_sendMessage (chatId : string) (_ : MessageMedia) (_ : string)
  (w : Mundo) : Conclusao unit * Mundo :=
  (if consta chatId (map (fun n => n ++ "@c.us") (bloqueados w))
   then Lanca ERRO_ENVIO else Retorna tt, w).

Definition PICANHA : MessageMedia :=
  {| mimetype := "image/png"; conteudo := "iVBORw0KGgo=" |}.

Definition simulado : Ambiente Mundo := {|
  amb_select := sim_select;
  amb_update := sim_update;
  amb_getNumberId := sim_getNumberId;
  amb_sendMessage := sim_sendMessage;
  amb_fromFilePath := fun _ w => (Retorna PICANHA, w);
  amb_readFileSync := fun _ w => (Retorna "Oferta da semana", w);
  amb_toISOString := fun w => ("2024-05-01T12:00:00.000Z", w);
  amb_random := fun w => (sorteio w, w);
  amb_setTimeout := fun _ w => w
|}.

(** One half, as a binary64 value. *)
Definition MEIO : spec_float := S754_finite false 4503599627370496 (-53).

Definition mundo (cs bs : list string) (us : list bool)
  (ss : list (Conclusao Resposta)) : Mundo :=
  {| contas := cs; bloqueados := bs; roteiro_update := us;
     roteiro_select := ss; sorteio := MEIO |}.

(** A world whose updates all resolve. *)
Definition simulado_sem_falhas : Ambiente Mundo := {|
  amb_select := sim_select;
  amb_update := fun _ _ _ w => (Retorna tt, w);
  amb_getNumberId := sim_getNumberId;
  amb_sendMessage := sim_sendMessage;
  amb_fromFilePath := fun _ w => (Retorna PICANHA, w);
  amb_readFileSync := fun _ w => (Retorna "Oferta da semana", w);
  amb_toISOString := fun w => ("2024-05-01T12:00:00.000Z", w);
  amb_random := fun w => (sorteio w, w);
  amb_setTimeout := fun _ w => w
|}.

(** A world whose writes of the caption throw and whose writes of the
    diagnostic resolve. *)
Definition simulado_legenda_falha : Ambiente Mundo := {|
  amb_select := sim_select;
  amb_update := fun _ _ msg w =>
    (if String.eqb msg MENSAGEM_ERRO then Retorna tt else Lanca ERRO_REDE, w);
  amb_getNumberId := sim_getNumberId;
  amb_sendMessage := sim_sendMessage;
  amb_fromFilePath := fun _ w => (Retorna PICANHA, w);
  amb_readFileSync := fun _ w => (Retorna "Oferta da semana", w);
  amb_toISOString := fun w => ("2024-05-01T12:00:00.000Z", w);
  amb_random := fun w => (sorteio w, w);
  amb_setTimeout := fun _ w => w
|}.

Definition ANA : Contato :=
  {| id := 7; telefone := VTexto "(11) 98765-4321" |}.
Definition BIA : Contato := {| id := 8; telefone := VTexto "4321" |}.

(** A row whose [telefone] was never filled in. *)
Definition CAIO : Contato := {| id := 9; telefone := VNulo |}.

Definition RESPOSTA_ERRO : Resposta :=
  {| data := None; error := Some {| message := "JWT expired" |} |}.

Definition RESPOSTA_VAZIA : Resposta := {| data := Some []; error := None |}.

End Simulacao.

(** ** The text of [gerarNumerosAlternativos]

    The statements of the function as written, lines 129 to 147, in a small
    language of expressions and statements, and an interpreter of that
    language in the monad of the loop. The language has what the function
    uses and, besides, expressions that read the world or call a
    collaborator, so that a function that is not pure can be written in it.
    The numbers of the language are the natural numbers and the values of
    [Math.random]. The operators [<] and [+] and the template literal are
    interpreted on numbers and on strings; on operands of other types, which
    JavaScript would convert, the interpreter stops with [NAO_COBERTO]. *)

Module Script.

#[warnings="-register-all"] Inductive Val : Type :=
| JStr (s : string)
| JNum (n : nat)
| JBool (b : bool)
| JFloat (x : spec_float)
| JArr (l : list Val)
| JNull
| JUndefined.

(** [EReplaceNaoDigitos e] is [e.replace(/\D/g, '')]; [ESlice e i (Some f)]
    is [e.slice(i, f)] and [ESlice e i None] is [e.slice(i)];
    [ETemplate p e1 e2] is the template literal of the text [p] followed by
    the values of [e1] and [e2]; [EArr0] is [[]] and [EArr2 e1 e2] is
    [[e1, e2]]. *)
Inductive Expr : Type :=
| EVar (x : string)
| EStr (s : string)
| ENum (n : nat)
| EReplaceNaoDigitos (e : Expr)
| ELength (e : Expr)
| ELt (e1 e2 : Expr)
| ESlice (e : Expr) (inicio : nat) (fim : option nat)
| EStartsWith (e : Expr) (p : string)
| ECond (c a b : Expr)
| EConcat (e1 e2 : Expr)
| ETemplate (p : string) (e1 e2 : Expr)
| EArr0
| EArr2 (e1 e2 : Expr)
| EMathRandom
| EGetNumberId (e : Expr).

(** [const x = e;], [if (c) return e;] and [return e;]. *)
Inductive Stmt : Type :=
| SConst (x : string) (e : Expr)
| SIfReturn (c : Expr) (e : Expr)
| SReturn (e : Expr).

Definition REFERENCE_ERROR (x : string) : Erro :=
  {| message := x ++ " is not defined" |}.

Definition NAO_COBERTO : Erro := {| message := "operands not covered" |}.

(** The [TypeError] of reading a property of [null] or [undefined], and of
    calling a property that is not a function. *)
Definition leitura_impossivel (valor propriedade : string) : Erro :=
  {| message :=
       "Cannot read properties of " ++ valor ++ " (reading '" ++ propriedade
       ++ "')" |}.

Definition texto_de (e : Expr) : string :=
  match e with
  | EVar x => x
  | _ => "(intermediate value)"
  end.

Definition nao_e_funcao (e : Expr) (propriedade : string) : Erro :=
  {| message := texto_de e ++ "." ++ propriedade ++ " is not a function" |}.

Fixpoint procurar (x : string) (env : list (string * Val)) : option Val :=
  match env with
  | [] => None
  | (y, v) :: resto => if String.eqb x y then Some v else procurar x resto
  end.

(** The conversion of a value to a boolean in a condition. *)
Definition verdadeiro (v : Val) : bool :=
  match v with
  | JBool b => b
  | JStr s => negb (String.eqb s "")
  | JNum n => negb (Nat.eqb n 0)
  | JFloat (S754_zero _) | JFloat S754_nan => false
  | JFloat _ => true
  | JArr _ => true
  | JNull | JUndefined => false
  end.

Section Interpretador.

Context {W : Type} (amb : Ambiente W).

(** The receiver of a method of strings. *)
Definition receptor (e : Expr) (metodo : string) (v : Val) : M W string :=
  match v with
  | JStr s => ret s
  | JNull => throw (leitura_impossivel "null" metodo)
  | JUndefined => throw (leitura_impossivel "undefined" metodo)
  | _ => throw (nao_e_funcao e metodo)
  end.

Fixpoint eval (env : list (string * Val)) (e : Expr) : M W Val :=
  match e with
  | EVar x =>
      match procurar x env with
      | Some v => ret v
      | None => throw (REFERENCE_ERROR x)
      end
  | EStr s => ret (JStr s)
  | ENum n => ret (JNum n)
  | EReplaceNaoDigitos e1 =>
      v <- eval env e1 ;;
      s <- receptor e1 "replace" v ;;
      ret (JStr (replace_classe nao_digito "" s))
  | ELength e1 =>
      v <- eval env e1 ;;
      match v with
      | JStr s => ret (JNum (String.length s))
      | JArr l => ret (JNum (List.length l))
      | JNull => throw (leitura_impossivel "null" "length")
      | JUndefined => throw (leitura_impossivel "undefined" "length")
      | _ => ret JUndefined
      end
  | ELt e1 e2 =>
      v1 <- eval env e1 ;;
      v2 <- eval env e2 ;;
      match v1, v2 with
      | JNum a, JNum b => ret (JBool (a <? b)%nat)
      | _, _ => throw NAO_COBERTO
      end
  | ESlice e1 inicio fim =>
      v <- eval env e1 ;;
      match v with
      | JArr l =>
          ret (JArr (match fim with
                     | Some f => firstn (f - inicio) (skipn inicio l)
                     | None => skipn inicio l
                     end))
      | _ =>
          s <- receptor e1 "slice" v ;;
          ret (JStr (match fim with
                     | Some f => slice s inicio f
                     | None => slice_de s inicio
                     end))
      end
  | EStartsWith e1 p =>
      v <- eval env e1 ;;
      s <- receptor e1 "startsWith" v ;;
      ret (JBool (startsWith s p))
  | ECond c a b =>
      v <- eval env c ;;
      if verdadeiro v then eval env a else eval env b
  | EConcat e1 e2 =>
      v1 <- eval env e1 ;;
      v2 <- eval env e2 ;;
      match v1, v2 with
      | JStr a, JStr b => ret (JStr (a ++ b))
      | JNum a, JNum b => ret (JNum (a + b))
      | _, _ => throw NAO_COBERTO
      end
  | ETemplate p e1 e2 =>
      v1 <- eval env e1 ;;
      v2 <- eval env e2 ;;
      match v1, v2 with
      | JStr a, JStr b => ret (JStr (p ++ a ++ b))
      | _, _ => throw NAO_COBERTO
      end
  | EArr0 => ret (JArr [])
  | EArr2 e1 e2 =>
      v1 <- eval env e1 ;;
      v2 <- eval env e2 ;;
      ret (JArr [v1; v2])
  | EMathRandom =>
      x <- leitura (amb_random amb) ;;
      ret (JFloat x)
  | EGetNumberId e1 =>
      v <- eval env e1 ;;
      match v with
      | JStr s =>
          r <- getNumberId amb s ;;
          ret (match r with Some wid => JStr wid | None => JNull end)
      | _ => throw NAO_COBERTO
      end
  end.

Fixpoint exec (env : list (string * Val)) (corpo : list Stmt) : M W Val :=
  match corpo with
  | [] => ret JUndefined
  | SConst x e :: resto =>
      v <- eval env e ;;
      exec ((x, v) :: env) resto
  | SIfReturn c e :: resto =>
      v <- eval env c ;;
      if verdadeiro v then eval env e else exec env resto
  | SReturn e :: _ => eval env e
  end.

(** The call of a function of one parameter. *)
Definition chamar (parametro : string) (corpo : list Stmt) (argumento : Val)
  : M W Val :=
  exec [(parametro, argumento)] corpo.

End Interpretador.

(** [function gerarNumerosAlternativos(telefone) { ... }]. *)
Definition corpo_gerarNumerosAlternativos : list Stmt :=
  [ SConst "limpo" (EReplaceNaoDigitos (EVar "telefone"));
    SIfReturn (ELt (ELength (EVar "limpo")) (ENum 10)) EArr0;
    SConst "ddd" (ESlice (EVar "limpo") 0 (Some 2));
    SConst "corpo" (ESlice (EVar "limpo") 2 None);
    SConst "com9"
      (ECond (EStartsWith (EVar "corpo") "9")
         (EVar "corpo") (EConcat (EStr "9") (EVar "corpo")));
    SConst "sem9"
      (ECond (EStartsWith (EVar "corpo") "9")
         (ESlice (EVar "corpo") 1 None) (EVar "corpo"));
    SReturn
      (EArr2 (ETemplate "55" (EVar "ddd") (EVar "sem9"))
             (ETemplate "55" (EVar "ddd") (EVar "com9"))) ].

(** A value of a column as a value of the language; [VOutro] stands for
    the values without a method [replace], here a number. *)
Definition de_valor (v : Valor) : Val :=
  match v with
  | VTexto s => JStr s
  | VNulo => JNull
  | VIndefinido => JUndefined
  | VOutro => JNum 0
  end.

End Script.

(** ** The shapes of the traces

    What the calls of a run can be, read off the control flow of
    [loopDeEnvio]: one candidate, the candidates of a contact, the step of a
    contact, a batch, an iteration and the loop. *)

Section Formas.

(** [sorteavel]: the values [Math.random] may return. *)
Variable sorteavel : spec_float -> Prop.
Variables (imagem : MessageMedia) (legenda : string).

(** One candidate: rejected by [getNumberId]; validated and the send throws;
    validated, sent and the write throws; validated, sent and written. *)
Inductive forma_tentativa (contato : Contato) (numero : string)
  : Controle -> list Evento -> Prop :=
| ft_rejeitado (v : Conclusao (option string)) :
    rejeita v = true ->
    forma_tentativa contato numero Continue [EvGetNumberId numero v]
| ft_envio_lanca (wid : string) (e : Erro) :
    forma_tentativa contato numero Continue
      [EvGetNumberId numero (Retorna (Some wid));
       EvSendMessage (numero ++ "@c.us") imagem legenda (Lanca e)]
| ft_escrita_lanca (wid ts : string) (e : Erro) :
    forma_tentativa contato numero Continue
      [EvGetNumberId numero (Retorna (Some wid));
       EvSendMessage (numero ++ "@c.us") imagem legenda (Retorna tt);
       EvUpdate (id contato) ts legenda (Lanca e)]
| ft_enviado (wid ts : string) :
    forma_tentativa contato numero Break
      [EvGetNumberId numero (Retorna (Some wid));
       EvSendMessage (numero ++ "@c.us") imagem legenda (Retorna tt);
       EvUpdate (id contato) ts legenda (Retorna tt)].

(** The candidates in order, up to the first [break]; the flag [enviado]. *)
Inductive forma_tentativas (contato : Contato)
  : list string -> bool -> list Evento -> Prop :=
| fts_fim : forma_tentativas contato [] false []
| fts_continue (numero : string) (resto : list string) (b : bool)
    (t1 t2 : list Evento) :
    forma_tentativa contato numero Continue t1 ->
    forma_tentativas contato resto b t2 ->
    forma_tentativas contato (numero :: resto) b (t1 ++ t2)%list
| fts_break (numero : string) (resto : list string) (t1 : list Evento) :
    forma_tentativa contato numero Break t1 ->
    forma_tentativas contato (numero :: resto) true t1.

(** The step of a contact: the candidates cannot be computed; sent, then the
    wait; not sent, the diagnostic written, then the wait; not sent and the
    write of the diagnostic throws. *)
Inductive forma_passo (contato : Contato)
  : Conclusao unit -> list Evento -> Prop :=
| fp_telefone (e : Erro) :
    gerarNumerosAlternativosDe (telefone contato) = Lanca e ->
    forma_passo contato (Lanca e) []
| fp_enviado (tel : string) (t1 : list Evento) (r : spec_float) :
    telefone contato = VTexto tel ->
    sorteavel r ->
    forma_tentativas contato (gerarNumerosAlternativos tel) true t1 ->
    forma_passo contato (Retorna tt) (t1 ++ [EvDelay (tempo r)])%list
| fp_diagnostico (tel : string) (t1 : list Evento) (ts : string)
    (r : spec_float) :
    telefone contato = VTexto tel ->
    sorteavel r ->
    forma_tentativas contato (gerarNumerosAlternativos tel) false t1 ->
    forma_passo contato (Retorna tt)
      (t1 ++ [EvUpdate (id contato) ts MENSAGEM_ERRO (Retorna tt);
              EvDelay (tempo r)])%list
| fp_lanca (tel : string) (t1 : list Evento) (ts : string) (e : Erro) :
    telefone contato = VTexto tel ->
    forma_tentativas contato (gerarNumerosAlternativos tel) false t1 ->
    forma_passo contato (Lanca e)
      (t1 ++ [EvUpdate (id contato) ts MENSAGEM_ERRO (Lanca e)])%list.

(** A batch: the steps of its contacts in order, up to the first that
    throws. *)
Inductive forma_lote : list Contato -> Conclusao unit -> list Evento -> Prop :=
| fl_fim : forma_lote [] (Retorna tt) []
| fl_passo (contato : Contato) (resto : list Contato) (r : Conclusao unit)
    (t1 t2 : list Evento) :
    forma_passo contato (Retorna tt) t1 ->
    forma_lote resto r t2 ->
    forma_lote (contato :: resto) r (t1 ++ t2)%list
| fl_lanca (contato : Contato) (resto : list Contato) (e : Erro)
    (t1 : list Evento) :
    forma_passo contato (Lanca e) t1 ->
    forma_lote (contato :: resto) (Lanca e) t1.

End Formas.

(** An iteration: the query throws; it resolves to an error; to neither an
    error nor rows; to no row; to rows, and then the image or the caption
    cannot be loaded, or the batch is processed with them. *)
Inductive forma_iteracao (sorteavel : spec_float -> Prop)
  : Conclusao unit -> list Evento -> Prop :=
| fi_select_lanca (e : Erro) :
    forma_iteracao sorteavel (Lanca e) [EvSelect (Lanca e)]
| fi_erro (resp : Resposta) :
    error resp <> None ->
    forma_iteracao sorteavel (Retorna tt)
      [EvSelect (Retorna resp); EvDelay (JsNumber.Num 10000)]
| fi_nulo (resp : Resposta) :
    error resp = None -> data resp = None ->
    forma_iteracao sorteavel (Lanca TYPE_ERROR_LENGTH)
      [EvSelect (Retorna resp)]
| fi_vazio (resp : Resposta) :
    error resp = None -> data resp = Some [] ->
    forma_iteracao sorteavel (Retorna tt)
      [EvSelect (Retorna resp); EvDelay (JsNumber.Num 30000)]
| fi_imagem_lanca (resp : Resposta) (contatos : list Contato) (e : Erro) :
    error resp = None -> data resp = Some contatos -> contatos <> [] ->
    forma_iteracao sorteavel (Lanca e)
      [EvSelect (Retorna resp); EvFromFilePath imagemPath (Lanca e)]
| fi_legenda_lanca (resp : Resposta) (contatos : list Contato)
    (imagem : MessageMedia) (e : Erro) :
    error resp = None -> data resp = Some contatos -> contatos <> [] ->
    forma_iteracao sorteavel (Lanca e)
      [EvSelect (Retorna resp); EvFromFilePath imagemPath (Retorna imagem);
       EvReadFileSync mensagemPath (Lanca e)]
| fi_lote (resp : Resposta) (contatos : list Contato)
    (imagem : MessageMedia) (legenda : string) (r : Conclusao unit)
    (t : list Evento) :
    error resp = None -> data resp = Some contatos -> contatos <> [] ->
    forma_lote sorteavel imagem legenda contatos r t ->
    forma_iteracao sorteavel r
      ([EvSelect (Retorna resp); EvFromFilePath imagemPath (Retorna imagem);
        EvReadFileSync mensagemPath (Retorna legenda)] ++ t)%list.

(** The loop, observed for a number of iterations: one iteration after the
    other, up to the first that throws. *)
Inductive forma_loop (sorteavel : spec_float -> Prop)
  : nat -> Conclusao unit -> list Evento -> Prop :=
| flp_fim : forma_loop sorteavel O (Retorna tt) []
| flp_iteracao (n : nat) (r : Conclusao unit) (t1 t2 : list Evento) :
    forma_iteracao sorteavel (Retorna tt) t1 ->
    forma_loop sorteavel n r t2 ->
    forma_loop sorteavel (S n) r (t1 ++ t2)%list
| flp_lanca (n : nat) (e : Erro) (t1 : list Evento) :
    forma_iteracao sorteavel (Lanca e) t1 ->
    forma_loop sorteavel (S n) (Lanca e) t1.

(** The values [Math.random] returns in an environment. *)
Definition sorteavel_em {W : Type} (amb : Ambiente W) (r : spec_float) : Prop :=
  exists w, fst (amb_random amb w) = r.

(** ** Vocabulary of the further properties *)

(** A value of [Math.random] that lands in the middle of the [j]-th of the
    20001 equal parts of the unit interval. *)
Definition sorteio_para (j : Z) : spec_float :=
  SFdiv JsNumber.prec JsNumber.emax
    (JsNumber.Num (2 * j + 1)) (JsNumber.Num 40002).

(** A write that threw; a load of one of the two content files. *)
Definition lancada (ev : Evento) : bool :=
  match ev with EvUpdate _ _ _ (Lanca _) => true | _ => false end.

Definition carga (ev : Evento) : bool :=
  match ev with
  | EvFromFilePath _ _ | EvReadFileSync _ _ => true
  | _ => false
  end.

(** The numbers passed to [getNumberId], in the order of the calls. *)
Definition numeros_validados (t : list Evento) : list string :=
  flat_map (fun ev => match ev with
                      | EvGetNumberId n _ => [n]
                      | _ => []
                      end) t.

(** What an event of the step of a contact can be. *)
Definition evento_do_passo (imagem : MessageMedia) (legenda : string)
  (contato : Contato) (ev : Evento) : Prop :=
  match ev with
  | EvGetNumberId n _ => In n (candidatos contato)
  | EvSendMessage chat m cap _ =>
      m = imagem /\ cap = legenda /\
      exists n, In n (candidatos contato) /\ chat = n ++ "@c.us"
  | EvUpdate i _ msg _ =>
      i = id contato /\ (msg = legenda \/ msg = MENSAGEM_ERRO)
  | EvDelay ms => exists r, ms = tempo r
  | _ => False
  end.

Definition evento_do_lote (imagem : MessageMedia) (legenda : string)
  (contatos : list Contato) (ev : Evento) : Prop :=
  exists c, In c contatos /\ evento_do_passo imagem legenda c ev.

(** The events on which an exception [e] leaves the loop. *)
Definition fatal (e : Erro) (ev : Evento) : Prop :=
  match ev with
  | EvSelect (Lanca e') => e' = e
  | EvSelect (Retorna resp) =>
      error resp = None /\ data resp = None /\ e = TYPE_ERROR_LENGTH
  | EvFromFilePath caminho (Lanca e') => caminho = imagemPath /\ e' = e
  | EvReadFileSync caminho (Lanca e') => caminho = mensagemPath /\ e' = e
  | EvUpdate _ _ msg (Lanca e') => msg = MENSAGEM_ERRO /\ e' = e
  | _ => False
  end.

(** Scanning a trace: every send comes right after a [getNumberId] that
    resolved to an account, for the number the send is addressed to. *)
Fixpoint envios_validados (anterior : option Evento) (t : list Evento)
  : bool :=
  match t with
  | [] => true
  | ev :: t' =>
      match ev with
      | EvSendMessage chat _ _ _ =>
          match anterior with
          | Some (EvGetNumberId n (Retorna (Some _))) =>
              String.eqb chat (n ++ "@c.us")
          | _ => false
          end
      | _ => true
      end && envios_validados (Some ev) t'
  end.

(** Scanning a trace: every query but the first comes after a wait made
    since the query before it. *)
Fixpoint consultas_espacadas (esperou : bool) (t : list Evento) : bool :=
  match t with
  | [] => true
  | EvSelect _ :: t' => esperou && consultas_espacadas false t'
  | EvDelay _ :: t' => consultas_espacadas true t'
  | _ :: t' => consultas_espacadas esperou t'
  end.

(** The event before the end of a trace, [anterior] when it is empty. *)
Fixpoint ultimo (anterior : option Evento) (t : list Evento) : option Evento :=
  match t with
  | [] => anterior
  | ev :: t' => ultimo (Some ev) t'
  end.

Definition consulta (ev : Evento) : bool :=
  match ev with EvSelect _ => true | _ => false end.

Definition espera (ev : Evento) : bool :=
  match ev with EvDelay _ => true | _ => false end.

(** The acknowledged writes: the contacts they were made to, in order. *)
Definition ids_aceitos (t : list Evento) : list Z :=
  flat_map (fun ev => match ev with
                      | EvUpdate i _ _ (Retorna _) => [i]
                      | _ => []
                      end) t.

(** A query that finds one contact, and a simulated environment whose
    [Math.random] always returns one half. *)
Definition LOTE_ANA : Resposta :=
  {| data := Some [Simulacao.ANA]; error := None |}.

Definition SIMULADO_MEIO : Ambiente Simulacao.Mundo := {|
  amb_select := Simulacao.sim_select;
  amb_update := Simulacao.sim_update;
  amb_getNumberId := Simulacao.sim_getNumberId;
  amb_sendMessage := Simulacao.sim_sendMessage;
  amb_fromFilePath := fun _ w => (Retorna Simulacao.PICANHA, w);
  amb_readFileSync := fun _ w => (Retorna "Oferta da semana", w);
  amb_toISOString := fun w => ("2024-05-01T12:00:00.000Z", w);
  amb_random := fun w => (Simulacao.MEIO, w);
  amb_setTimeout := fun _ w => w
|}.

(** How an exception [e] ends a run whose trace is [t]: on a call that
    threw, or at a row of the last batch fetched whose phone is not a
    string. *)
Definition fim_da_execucao (e : Erro) (t : list Evento) : Prop :=
  (exists t0 ev, t = (t0 ++ [ev])%list /\ fatal e ev) \/
  (exists t0 resp contatos c t1,
      t = (t0 ++ EvSelect (Retorna resp) :: t1)%list /\
      data resp = Some contatos /\ In c contatos /\
      gerarNumerosAlternativosDe (telefone c) = Lanca e /\
      forallb (fun ev => negb (consulta ev)) t1 = true).

(** * Properties *)

(** ** The number normalizer *)

Lemma replace_nao_digitos (t : string) :
  list_ascii_of_string (replace_classe nao_digito "" t) = digitos t.
Proof.
  unfold digitos, nao_digito.
  induction t as [|c t IH]; simpl; [reflexivity|].
  destruct (digito c); simpl; now rewrite IH.
Qed.

Lemma length_list_ascii (s : string) :
  List.length (list_ascii_of_string s) = String.length s.
Proof. induction s; simpl; congruence. Qed.

Lemma substring_inteira (s : string) : substring 0 (String.length s) s = s.
Proof. induction s; simpl; congruence. Qed.

Lemma limpo_de_lista (t : string) :
  replace_classe nao_digito "" t = string_of_list_ascii (digitos t).
Proof.
  rewrite <- replace_nao_digitos. now rewrite string_of_list_ascii_of_string.
Qed.

Lemma startsWith_nove (c : ascii) (s : string) :
  startsWith (String c s) "9" = Ascii.eqb c "9".
Proof.
  unfold startsWith.
  change (prefix "9" (String c s))
    with (if ascii_dec "9" c then prefix "" s else false).
  destruct (ascii_dec "9" c) as [<-|Hne].
  - now destruct s.
  - symmetry. apply Ascii.eqb_neq. congruence.
Qed.

(** The candidates, read off the digits: no candidate below ten digits, and
    otherwise the two forms built on the area code and on the subscriber
    digits without their leading 9. *)
Lemma gerar_por_digitos (t : string) :
  gerarNumerosAlternativos t =
  match digitos t with
  | d1 :: d2 :: corpo =>
      if (List.length (digitos t) <? 10)%nat then []
      else
        let ddd := String d1 (String d2 "") in
        let s := string_of_list_ascii (sem_nove corpo) in
        ["55" ++ ddd ++ s; "55" ++ ddd ++ "9" ++ s]
  | _ => []
  end.
Proof.
  unfold gerarNumerosAlternativos.
  rewrite <- (length_list_ascii (replace_classe _ _ _)), replace_nao_digitos.
  rewrite limpo_de_lista.
  destruct (digitos t) as [|d1 [|d2 corpo]]; try reflexivity.
  destruct (_ <? 10)%nat; [reflexivity|].
  cbn [string_of_list_ascii].
  set (r := string_of_list_ascii corpo).
  assert (Hddd : slice (String d1 (String d2 r)) 0 2 = String d1 (String d2 ""))
    by (unfold slice; simpl; now destruct r).
  assert (Hcorpo : slice_de (String d1 (String d2 r)) 2 = r)
    by (unfold slice_de; simpl; rewrite Nat.sub_0_r; apply substring_inteira).
  rewrite Hddd, Hcorpo. subst r.
  destruct corpo as [|c resto]; [reflexivity|].
  cbn [string_of_list_ascii]. rewrite startsWith_nove.
  unfold sem_nove.
  destruct (Ascii.eqb_spec c "9") as [->|Hne].
  - unfold slice_de; simpl. rewrite Nat.sub_0_r, substring_inteira. reflexivity.
  - destruct c as [[] [] [] [] [] [] [] []]; try reflexivity. congruence.
Qed.

(** C2: at least ten digit characters give exactly two candidates, in this
    order: [55], the two-digit area code and the subscriber digits without
    their leading 9; then the same with the 9 in front of the subscriber
    digits. The two share [55] and the area code and differ only in that 9. *)
Theorem gerarNumerosAlternativos_dois_candidatos (t : string) :
  (10 <= List.length (digitos t))%nat ->
  exists d1 d2 corpo,
    digitos t = d1 :: d2 :: corpo /\
    let ddd := String d1 (String d2 "") in
    let assinante := string_of_list_ascii (sem_nove corpo) in
    gerarNumerosAlternativos t =
      ["55" ++ ddd ++ assinante; "55" ++ ddd ++ "9" ++ assinante].
Proof.
  intros H. rewrite gerar_por_digitos.
  destruct (digitos t) as [|d1 [|d2 corpo]] eqn:E; simpl in H; try lia.
  exists d1, d2, corpo. split; [reflexivity|].
  replace (_ <? 10)%nat with false; [reflexivity|].
  symmetry. apply Nat.ltb_ge. simpl. lia.
Qed.

Lemma gerarNumerosAlternativos_dois_candidatos_witness :
  (10 <= List.length (digitos "(11) 98765-4321"))%nat /\
  exists d1 d2 corpo,
    digitos "(11) 98765-4321" = d1 :: d2 :: corpo /\
    gerarNumerosAlternativos "(11) 98765-4321" =
      ["55" ++ String d1 (String d2 "") ++ string_of_list_ascii (sem_nove corpo);
       "55" ++ String d1 (String d2 "") ++ "9"
         ++ string_of_list_ascii (sem_nove corpo)].
Proof.
  split; [simpl; lia|].
  apply (gerarNumerosAlternativos_dois_candidatos "(11) 98765-4321").
  simpl; lia.
Defined.

Lemma gerar_poucos_digitos (t : string) :
  (List.length (digitos t) < 10)%nat -> gerarNumerosAlternativos t = [].
Proof.
  intros H. rewrite gerar_por_digitos.
  destruct (digitos t) as [|d1 [|d2 corpo]]; try reflexivity.
  apply Nat.ltb_lt in H. now rewrite H.
Qed.

(** C10: two raw phone strings with the same digit characters, in the same
    order, have the same candidates, whatever else they contain. *)
Theorem gerarNumerosAlternativos_so_digitos (t1 t2 : string) :
  digitos t1 = digitos t2 ->
  gerarNumerosAlternativos t1 = gerarNumerosAlternativos t2.
Proof.
  intros H. rewrite !gerar_por_digitos, H. reflexivity.
Qed.

Lemma gerarNumerosAlternativos_so_digitos_witness :
  digitos "+55 (11) 98765-4321" = digitos "55.11.98765.4321" /\
  gerarNumerosAlternativos "+55 (11) 98765-4321" =
  gerarNumerosAlternativos "55.11.98765.4321".
Proof.
  split; [vm_compute; reflexivity|].
  apply (gerarNumerosAlternativos_so_digitos "+55 (11) 98765-4321"
           "55.11.98765.4321").
  vm_compute; reflexivity.
Defined.

Example gerar_formatado :
  gerarNumerosAlternativos "(11) 98765-4321" = ["551187654321"; "5511987654321"].
Proof. reflexivity. Qed.

Example gerar_fixo :
  gerarNumerosAlternativos "11 3456-7890" = ["551134567890"; "5511934567890"].
Proof. reflexivity. Qed.

Example gerar_curto : gerarNumerosAlternativos "98765-4321" = [].
Proof. reflexivity. Qed.

Example gerar_dois_noves :
  gerarNumerosAlternativos "11 99876-5432" = ["551198765432"; "5511998765432"].
Proof. reflexivity. Qed.

(** ** Binary64 arithmetic: rounding never goes above the midpoint *)

Section Binary64.

Import JsNumber.
Local Open Scope Z_scope.

Lemma iter_pos_nat {A : Type} (f : A -> A) (p : positive) (x : A) :
  iter_pos f p x = Nat.iter (Pos.to_nat p) f x.
Proof.
  revert x. induction p as [p IH|p IH|]; intros x; cbn [iter_pos].
  - rewrite !IH, Pos2Nat.inj_xI, Nat.iter_succ_r.
    replace (2 * Pos.to_nat p)%nat with (Pos.to_nat p + Pos.to_nat p)%nat
      by lia.
    now rewrite Nat.iter_add.
  - rewrite !IH, Pos2Nat.inj_xO.
    replace (2 * Pos.to_nat p)%nat with (Pos.to_nat p + Pos.to_nat p)%nat
      by lia.
    now rewrite Nat.iter_add.
  - reflexivity.
Qed.


Lemma corte_shr_1 (n j : Z) (mrs : shr_record) :
  0 <= j -> corte n j mrs -> corte n (j + 1) (shr_1 mrs).
Proof.
  intros Hj (Hm & Hrem & Hr). unfold corte.
  rewrite Z.pow_add_r by lia. change (2 ^ 1) with 2.
  assert (Hp : 0 < 2 ^ j) by (apply Z.pow_pos_nonneg; lia).
  destruct mrs as [m r s]; cbn [shr_m shr_r] in *.
  destruct m as [|[p|p|]|p]; cbn [shr_1 shr_m shr_r]; try lia;
    repeat split; try nia; intros; try discriminate; nia.
Qed.

Lemma corte_iter (n : Z) (mrs : shr_record) (k : nat) :
  corte n 0 mrs -> corte n (Z.of_nat k) (Nat.iter k shr_1 mrs).
Proof.
  intros H0. induction k as [|k IH]; [exact H0|].
  rewrite Nat2Z.inj_succ. unfold Z.succ. simpl.
  apply corte_shr_1; [lia|exact IH].
Qed.

Lemma shr_fexp_exato (n E : Z) :
  0 <= n ->
  exists mrs,
    let e1 := Z.max E (fexp prec emax (Zdigits2 n + E)) in
    shr_fexp prec emax n E loc_Exact = (mrs, e1) /\ corte n (e1 - E) mrs.
Proof.
  intros Hn. unfold shr_fexp, shr. cbn [shr_record_of_loc].
  set (f := fexp prec emax (Zdigits2 n + E)).
  assert (H0 : corte n 0 (Build_shr_record n false false)).
  { unfold corte; cbn [shr_m shr_r]. change (2 ^ 0) with 1.
    repeat split; try lia; discriminate. }
  destruct (f - E) as [|p|p] eqn:Hk.
  - eexists; split; [|replace (Z.max E f - E) with 0 by lia; exact H0].
    f_equal; lia.
  - exists (iter_pos shr_1 p (Build_shr_record n false false)). split.
    + f_equal; lia.
    + rewrite iter_pos_nat.
      replace (Z.max E f - E) with (Z.of_nat (Pos.to_nat p))
        by (rewrite positive_nat_Z; lia).
      now apply corte_iter.
  - eexists; split; [|replace (Z.max E f - E) with 0 by lia; exact H0].
    f_equal; lia.
Qed.

Lemma round_nearest_even_corte (n j : Z) (mrs : shr_record) :
  0 <= j -> corte n j mrs ->
  let q := round_nearest_even (shr_m mrs) (loc_of_shr_record mrs) in
  0 <= q /\ 2 * q * 2 ^ j <= 2 * n + 2 ^ j.
Proof.
  intros Hj (Hm & Hrem & Hr).
  assert (Hp : 0 < 2 ^ j) by (apply Z.pow_pos_nonneg; lia).
  destruct mrs as [m [] []]; cbn [shr_m shr_r loc_of_shr_record] in *;
    cbn [round_nearest_even]; try destruct (Z.even m);
    try specialize (Hr eq_refl); split; nia.
Qed.

(** Rounding to nearest of a positive number [n * 2^E]: the result is at
    most the number plus half a unit in the last place kept. *)
Lemma binary_round_aux_exato (n E : Z) :
  0 < n ->
  exists q m2,
    let e1 := Z.max E (fexp prec emax (Zdigits2 n + E)) in
    let e2 := Z.max e1 (fexp prec emax (Zdigits2 q + e1)) in
    0 <= q /\ 2 * q * 2 ^ (e1 - E) <= 2 * n + 2 ^ (e1 - E) /\
    0 <= m2 /\ m2 * 2 ^ (e2 - e1) <= q /\
    binary_round_aux prec emax false n E loc_Exact =
      match m2 with
      | Z0 => S754_zero false
      | Zpos m =>
          if e2 <=? emax - prec then S754_finite false m e2
          else S754_infinity false
      | Zneg _ => S754_nan
      end.
Proof.
  intros Hn. unfold binary_round_aux.
  destruct (shr_fexp_exato n E) as (mrs1 & H1 & C1); [lia|].
  cbv zeta in H1, C1. rewrite H1.
  set (e1 := Z.max E (fexp prec emax (Zdigits2 n + E))) in *.
  destruct (round_nearest_even_corte n (e1 - E) mrs1) as (Hq0 & Hq);
    [lia|exact C1|].
  set (q := round_nearest_even (shr_m mrs1) (loc_of_shr_record mrs1)) in *.
  destruct (shr_fexp_exato q e1) as (mrs2 & H2 & C2); [lia|].
  cbv zeta in H2, C2. rewrite H2.
  exists q, (shr_m mrs2). cbv zeta. fold e1.
  destruct C2 as (Hm2 & Hrem2 & _).
  repeat split; try assumption; lia.
Qed.

Lemma digits2_pos_size (p : positive) : digits2_pos p = Pos.size p.
Proof. induction p; simpl; congruence. Qed.

Lemma digits2_pos_gt (p : positive) : Zpos p < 2 ^ Zpos (digits2_pos p).
Proof.
  rewrite digits2_pos_size.
  change 2 with (Zpos 2). rewrite <- Pos2Z.inj_pow.
  apply Pos2Z.pos_lt_pos, Pos.size_gt.
Qed.

Lemma Zdigits2_le (x j : Z) : 0 <= j -> 0 <= x < 2 ^ j -> Zdigits2 x <= j.
Proof.
  intros Hj [H0 Hx]. destruct x as [|p|p]; simpl; try lia.
  destruct (Z_le_gt_dec (Zpos (digits2_pos p)) j) as [|Hgt]; [assumption|].
  exfalso.
  assert (H2 : 2 ^ (j + 1) <= 2 ^ Zpos (digits2_pos p))
    by (apply Z.pow_le_mono_r; lia).
  assert (H3 : 2 ^ Zpos (digits2_pos p) <= Zpos p~0).
  { rewrite digits2_pos_size. change 2 with (Zpos 2) at 1.
    rewrite <- Pos2Z.inj_pow. apply Pos2Z.pos_le_pos, Pos.size_le. }
  rewrite Z.pow_add_r in H2 by lia. change (2 ^ 1) with 2 in H2. lia.
Qed.

(** A value of [Math.random]: zero, or positive with an exponent of at most
    -53 and a mantissa of at most 53 bits. *)
Lemma unitario_finito (s : bool) (m : positive) (e : Z) :
  unitario (S754_finite s m e) = true ->
  s = false /\ -1074 <= e <= -53 /\ Zpos m < 2 ^ 53.
Proof.
  unfold unitario. intros H.
  apply andb_prop in H as [H Hlt]. apply andb_prop in H as [Hv Hle].
  change (Num 0) with (S754_zero false) in Hle.
  change (Num 1) with (S754_finite false 4503599627370496 (-52)) in Hlt.
  assert (Hs : s = false) by (destruct s; [discriminate Hle|reflexivity]).
  subst s. split; [reflexivity|].
  cbn [valid_binary] in Hv. unfold bounded, canonical_mantissa in Hv.
  apply andb_prop in Hv as [Hc _]. apply Z.eqb_eq in Hc.
  unfold fexp, emin, prec, emax in Hc.
  pose proof (digits2_pos_gt m) as Hd.
  assert (Hd53 : Zpos (digits2_pos m) <= 53) by lia.
  assert (Hm : Zpos m < 2 ^ 53).
  { eapply Z.lt_le_trans; [exact Hd|]. apply Z.pow_le_mono_r; lia. }
  repeat split; try lia.
  unfold SFltb, SFcompare in Hlt.
  destruct (Z.compare_spec e (-52)) as [He|He|He]; try lia; try discriminate.
  subst e. exfalso.
  assert (Hm52 : Zpos m < 2 ^ 52).
  { change (2 ^ 52) with (Zpos 4503599627370496).
    apply Pos2Z.pos_lt_pos. unfold Pos.lt.
    change (Pos.compare m 4503599627370496)
      with (PosDef.Pos.compare_cont Eq m 4503599627370496).
    destruct (PosDef.Pos.compare_cont Eq m 4503599627370496);
      [discriminate Hlt|reflexivity|discriminate Hlt]. }
  assert (Hd52 : Zdigits2 (Zpos m) <= 52) by (apply Zdigits2_le; lia).
  simpl in Hd52. lia.
Qed.

(** The product of a value of [Math.random] by 20001, rounded to binary64,
    stays below 20001: its floor is an integer from 0 to 20000. *)
Lemma floor_mul_unitario (m : positive) (e : Z) :
  -1074 <= e <= -53 -> Zpos m < 2 ^ 53 ->
  exists z, 0 <= z <= 20000 /\
    floor (mul (S754_finite false m e) (Num 20001)) = Num z.
Proof.
  intros He Hm.
  change (Num 20001) with (S754_finite false 5497833016786944 (-38)).
  unfold mul. cbn [SFmul xorb].
  set (c := 5497833016786944) in *.
  set (n := Zpos (m * 5497833016786944)). set (E := e + -38).
  assert (Hn : n = Zpos m * c) by reflexivity.
  destruct (binary_round_aux_exato n E) as (q & m2 & Hq0 & Hq & Hm20 & Hm2 & Hr);
    [lia|].
  cbv zeta in Hq, Hm2, Hr. rewrite Hr. clear Hr.
  set (e1 := Z.max E (fexp prec emax (Zdigits2 n + E))) in *.
  set (e2 := Z.max e1 (fexp prec emax (Zdigits2 q + e1))) in *.
  set (P := 2 ^ (- e)).
  assert (HP : 2 ^ 53 <= P) by (apply Z.pow_le_mono_r; lia).
  assert (H106 : 2 ^ 106 = 2 ^ 53 * 2 ^ 53) by reflexivity.
  assert (Hc : 2 ^ 52 < c < 2 ^ 53) by (unfold c; split; reflexivity).
  assert (H53 : 0 < 2 ^ 53) by reflexivity.
  assert (HDn : Zdigits2 n <= 106) by (apply Zdigits2_le; nia).
  assert (He1 : E <= e1 <= -38 /\ e1 - E <= 53)
    by (unfold e1, E, fexp, emin, prec, emax; lia).
  set (K := 2 ^ (e1 - E)) in *.
  assert (HK : 0 < K <= 2 ^ 53).
  { split; [apply Z.pow_pos_nonneg; lia|apply Z.pow_le_mono_r; lia]. }
  assert (HnP : n <= (P - 1) * c) by nia.
  set (T := 2 ^ (15 - e1)).
  assert (HT : 0 < T) by (apply Z.pow_pos_nonneg; lia).
  assert (HTK : T * K = 2 ^ 53 * P).
  { unfold T, K, P. rewrite <- !Z.pow_add_r by lia. f_equal. unfold E. lia. }
  assert (HqT : q <= T) by nia.
  assert (HDq : Zdigits2 q <= 16 - e1).
  { apply Zdigits2_le; [lia|]. split; [lia|].
    replace (16 - e1) with (15 - e1 + 1) by lia.
    rewrite Z.pow_add_r by lia. fold T. change (2 ^ 1) with 2. lia. }
  assert (He2 : e1 <= e2 <= -37)
    by (unfold e2, fexp, emin, prec, emax; lia).
  destruct m2 as [|p|p]; [| |lia].
  - exists 0. split; [lia|reflexivity].
  - replace (e2 <=? emax - prec) with true
      by (symmetry; apply Z.leb_le; unfold emax, prec; lia).
    unfold floor. replace (0 <=? e2) with false
      by (symmetry; apply Z.leb_gt; lia).
    cbn [cond_Zopp].
    exists (Z.shiftr (Zpos p) (- e2)).
    split; [|reflexivity].
    rewrite Z.shiftr_div_pow2 by lia.
    set (Y := 2 ^ (- e2)). set (X := 2 ^ (e2 - e1)) in *.
    assert (HY : 0 < Y) by (apply Z.pow_pos_nonneg; lia).
    assert (HX : 0 < X) by (apply Z.pow_pos_nonneg; lia).
    assert (HYXK : Y * X * K = 2 ^ 38 * P).
    { unfold Y, X, K, P. rewrite <- !Z.pow_add_r by lia. f_equal.
      unfold E. lia. }
    assert (Hc38 : c = 20001 * 2 ^ 38) by reflexivity.
    assert (Hlt : Zpos p < 20001 * Y).
    { destruct (Z_lt_ge_dec (Zpos p) (20001 * Y)) as [|Hge]; [assumption|].
      exfalso.
      assert (H1 : 2 * (20001 * Y) * X * K <= 2 * Zpos p * X * K).
      { apply Z.mul_le_mono_nonneg_r; [lia|].
        apply Z.mul_le_mono_nonneg_r; lia. }
      assert (H2 : 2 * Zpos p * X * K <= 2 * q * K).
      { apply Z.mul_le_mono_nonneg_r; [lia|]. lia. }
      assert (H3 : 2 * (20001 * Y) * X * K = 2 * c * P).
      { rewrite Hc38.
        transitivity (2 * 20001 * (Y * X * K)); [ring|].
        rewrite HYXK. ring. }
      nia. }
    split.
    + apply Z.div_pos; lia.
    + assert (Zpos p / Y < 20001); [|lia].
      apply Z.div_lt_upper_bound; lia.
Qed.

Lemma mesmo_eq (x y : spec_float) : mesmo x y = true -> x = y.
Proof.
  destruct x as [s1|s1| |s1 m1 e1], y as [s2|s2| |s2 m2 e2]; simpl;
    try discriminate; intros H.
  - now apply Bool.eqb_prop in H as ->.
  - now apply Bool.eqb_prop in H as ->.
  - reflexivity.
  - apply andb_prop in H as [H He]. apply andb_prop in H as [Hs Hm].
    apply Bool.eqb_prop in Hs as ->. apply Pos.eqb_eq in Hm as ->.
    now apply Z.eqb_eq in He as ->.
Qed.

Lemma todos_spec (f : Z -> bool) (n : nat) (z : Z) :
  todos f n z = true -> forall k, z <= k < z + Z.of_nat n -> f k = true.
Proof.
  revert z. induction n as [|n IH]; intros z H k Hk; [lia|].
  cbn [todos] in H. apply andb_prop in H as [Hz H].
  destruct (Z.eq_dec k z) as [->|Hne]; [exact Hz|].
  apply (IH (Z.succ z)); [exact H|lia].
Qed.

(** The sum with 10000 of an integer from 0 to 20000 is exact: checked on
    each of them. *)
Lemma add_10000_tabela :
  todos (fun k => mesmo (add (Num k) (Num 10000)) (Num (k + 10000)))
    (Z.to_nat 20001) 0 = true.
Proof. vm_compute. reflexivity. Qed.

Lemma add_10000_exata (z : Z) :
  0 <= z <= 20000 -> add (Num z) (Num 10000) = Num (z + 10000).
Proof.
  intros Hz. apply mesmo_eq.
  apply (todos_spec _ _ _ add_10000_tabela z). lia.
Qed.

(** The delay of [delayAleatorio], for every value [Math.random] may
    return. *)
Lemma tempo_limites (r : spec_float) :
  unitario r = true ->
  exists ms, tempo r = Num ms /\ 10000 <= ms <= 30000.
Proof.
  intros Hr. unfold tempo.
  change (add (sub (Num 30000) (Num 10000)) (Num 1)) with (Num 20001).
  destruct r as [s|s| |s m e].
  - exists 10000. split; [|lia]. destruct s; reflexivity.
  - destruct s; discriminate Hr.
  - discriminate Hr.
  - apply unitario_finito in Hr as (-> & He & Hm).
    destruct (floor_mul_unitario m e He Hm) as (z & Hz & ->).
    exists (z + 10000). split; [apply add_10000_exata; lia|lia].
Qed.

End Binary64.

(** ** The dispatch loop *)

Section LoopProps.

Context {W : Type} (amb : Ambiente W).
Variables (imagem : MessageMedia) (legenda : string).

Ltac caso :=
  match goal with
  | |- context [match ?x with _ => _ end] => destruct x eqn:?
  end.

Lemma update_contato_eq (i : Z) (msg : string) (w : W) :
  update_contato amb i msg w =
  let '(ts, w1) := amb_toISOString amb w in
  let '(r, w2) := amb_update amb i ts msg w1 in
  (r, w2, [EvUpdate i ts msg r]).
Proof.
  unfold update_contato, bind, leitura, chamada.
  destruct (amb_toISOString amb w) as [ts w1].
  destruct (amb_update amb i ts msg w1) as [[[]|e] w2]; reflexivity.
Qed.

Lemma delayAleatorio_eq (w : W) :
  delayAleatorio amb w =
  let '(r, w1) := amb_random amb w in
  (Retorna tt, amb_setTimeout amb (tempo r) w1, [EvDelay (tempo r)]).
Proof.
  unfold delayAleatorio, bind, leitura, delay.
  now destruct (amb_random amb w).
Qed.

(** One candidate, case by case. *)
Lemma tentarNumero_eq (contato : Contato) (numero : string) (w : W) :
  tentarNumero amb contato imagem legenda numero w =
  let '(v, w1) := amb_getNumberId amb numero w in
  match v with
  | Retorna (Some _) =>
      let '(s, w2) :=
        amb_sendMessage amb (numero ++ "@c.us") imagem legenda w1 in
      match s with
      | Retorna _ =>
          let '(ts, w3) := amb_toISOString amb w2 in
          let '(u, w4) := amb_update amb (id contato) ts legenda w3 in
          (Retorna (match u with Retorna _ => Break | Lanca _ => Continue end),
           w4,
           [EvGetNumberId numero v; EvSendMessage (numero ++ "@c.us") imagem
              legenda s; EvUpdate (id contato) ts legenda u])
      | Lanca _ =>
          (Retorna Continue, w2,
           [EvGetNumberId numero v;
            EvSendMessage (numero ++ "@c.us") imagem legenda s])
      end
  | _ => (Retorna Continue, w1, [EvGetNumberId numero v])
  end.
Proof.
  unfold tentarNumero, try_catch, bind, getNumberId, sendMessage, chamada.
  rewrite ?update_contato_eq.
  destruct (amb_getNumberId amb numero w) as [[[x|]|e] w1]; try reflexivity.
  destruct (amb_sendMessage _ _ _ _ w1) as [[[]|e] w2]; try reflexivity.
  rewrite update_contato_eq.
  destruct (amb_toISOString amb w2) as [ts w3].
  destruct (amb_update amb _ ts legenda w3) as [[[]|e] w4]; reflexivity.
Qed.

Lemma tentarNumero_rejeitado (contato : Contato) (numero : string) (w w1 : W)
  (v : Conclusao (option string)) :
  amb_getNumberId amb numero w = (v, w1) -> rejeita v = true ->
  tentarNumero amb contato imagem legenda numero w =
  (Retorna Continue, w1, [EvGetNumberId numero v]).
Proof.
  intros Hv Hrej. rewrite tentarNumero_eq, Hv.
  destruct v as [[x|]|e]; [discriminate Hrej|reflexivity|reflexivity].
Qed.

(** The loop over the candidates never throws. *)
Lemma tentarNumero_retorna (contato : Contato) (numero : string) (w : W) :
  exists c w' t,
    tentarNumero amb contato imagem legenda numero w = (Retorna c, w', t).
Proof.
  rewrite tentarNumero_eq. repeat caso; eauto.
Qed.

Lemma tentarNumeros_cons (contato : Contato) (numero : string)
  (resto : list string) (w : W) :
  tentarNumeros amb contato imagem legenda (numero :: resto) w =
  match tentarNumero amb contato imagem legenda numero w with
  | (Retorna Break, w1, t1) => (Retorna true, w1, t1)
  | (Retorna Continue, w1, t1) =>
      let '(r, w2, t2) :=
        tentarNumeros amb contato imagem legenda resto w1 in
      (r, w2, (t1 ++ t2)%list)
  | (Lanca e, w1, t1) => (Lanca e, w1, t1)
  end.
Proof.
  cbn [tentarNumeros]. unfold bind at 1.
  destruct (tentarNumero _ _ _ _ _ w) as [[[[]|e] w1] t1]; try reflexivity.
  unfold ret. now rewrite app_nil_r.
Qed.

Lemma tentarNumeros_retorna (contato : Contato) (tentativas : list string)
  (w : W) :
  exists b w' t,
    tentarNumeros amb contato imagem legenda tentativas w = (Retorna b, w', t).
Proof.
  revert w. induction tentativas as [|numero resto IH]; intros w.
  - now exists false, w, [].
  - rewrite tentarNumeros_cons.
    destruct (tentarNumero_retorna contato numero w) as ([] & w1 & t1 & ->).
    + destruct (IH w1) as (b & w2 & t2 & ->). eauto.
    + eauto.
Qed.

(** The body of the loop over the contacts, in terms of the flag, for a
    contact whose phone is a string. *)
Lemma processarContato_eq (contato : Contato) (tel : string) (w : W) :
  telefone contato = VTexto tel ->
  processarContato amb imagem legenda contato w =
  match tentarNumeros amb contato imagem legenda
          (gerarNumerosAlternativos tel) w with
  | (Retorna true, w1, t1) =>
      let '(r, w2) := amb_random amb w1 in
      (Retorna tt, amb_setTimeout amb (tempo r) w2,
       (t1 ++ [EvDelay (tempo r)])%list)
  | (Retorna false, w1, t1) =>
      let '(ts, w2) := amb_toISOString amb w1 in
      let '(u, w3) := amb_update amb (id contato) ts MENSAGEM_ERRO w2 in
      match u with
      | Retorna _ =>
          let '(r, w4) := amb_random amb w3 in
          (Retorna tt, amb_setTimeout amb (tempo r) w4,
           (t1 ++ [EvUpdate (id contato) ts MENSAGEM_ERRO u;
                   EvDelay (tempo r)])%list)
      | Lanca e =>
          (Lanca e, w3,
           (t1 ++ [EvUpdate (id contato) ts MENSAGEM_ERRO u])%list)
      end
  | (Lanca e, w1, t1) => (Lanca e, w1, t1)
  end.
Proof.
  intros Htel. unfold processarContato, bind at 1, avaliar.
  rewrite Htel. cbn [gerarNumerosAlternativosDe app]. unfold bind.
  destruct (tentarNumeros _ _ _ _ _ w) as [[[[]|e] w1] t1]; cbn [negb];
    try reflexivity.
  - unfold ret. rewrite delayAleatorio_eq.
    destruct (amb_random amb w1) as [r w2]. reflexivity.
  - rewrite update_contato_eq.
    destruct (amb_toISOString amb w1) as [ts w2].
    destruct (amb_update amb _ ts _ w2) as [[[]|e] w3]; [|reflexivity].
    rewrite delayAleatorio_eq.
    destruct (amb_random amb w3) as [r w4]. reflexivity.
Qed.

(** When the phone is not a string, the body throws before any call. *)
Lemma processarContato_nao_texto (contato : Contato) (e : Erro) (w : W) :
  gerarNumerosAlternativosDe (telefone contato) = Lanca e ->
  processarContato amb imagem legenda contato w = (Lanca e, w, []).
Proof.
  intros He. unfold processarContato, bind at 1, avaliar. now rewrite He.
Qed.

Lemma candidatos_texto (contato : Contato) (tel : string) :
  telefone contato = VTexto tel ->
  candidatos contato = gerarNumerosAlternativos tel.
Proof. intros H. unfold candidatos. now rewrite H. Qed.

Lemma candidatos_cons (contato : Contato) (numero : string)
  (resto : list string) :
  candidatos contato = numero :: resto ->
  exists tel, telefone contato = VTexto tel /\
              gerarNumerosAlternativos tel = numero :: resto.
Proof.
  unfold candidatos. destruct (telefone contato) as [tel| | |];
    cbn; try discriminate. intros H. now exists tel.
Qed.


(** When no update throws, the candidates write once if the flag is set,
    the caption to the contact, and not at all otherwise. *)
Lemma tentarNumeros_uma_escrita (contato : Contato)
  (tentativas : list string) (w : W) (b : bool) (w' : W) (t : list Evento) :
  (forall i d m w0, fst (amb_update amb i d m w0) = Retorna tt) ->
  tentarNumeros amb contato imagem legenda tentativas w = (Retorna b, w', t) ->
  if b then exists ts,
      escritas t = [EvUpdate (id contato) ts legenda (Retorna tt)]
  else escritas t = [].
Proof.
  intros Hupd. revert w t. induction tentativas as [|numero resto IH];
    intros w t.
  - intros [= <- <- <-]. reflexivity.
  - rewrite tentarNumeros_cons, tentarNumero_eq.
    destruct (amb_getNumberId amb numero w) as [[[x|]|e] w1].
    + destruct (amb_sendMessage _ _ _ _ w1) as [[[]|e] w2].
      * destruct (amb_toISOString amb w2) as [ts w3].
        pose proof (Hupd (id contato) ts legenda w3) as Hu.
        destruct (amb_update amb _ ts legenda w3) as [u w4].
        cbn [fst] in Hu. subst u.
        intros [= <- <- <-]. now exists ts.
      * destruct (tentarNumeros _ _ _ _ resto w2) as [[r w5] t5] eqn:Hr.
        intros [= -> <- <-]. exact (IH _ _ Hr).
    + destruct (tentarNumeros _ _ _ _ resto w1) as [[r w5] t5] eqn:Hr.
      intros [= -> <- <-]. exact (IH _ _ Hr).
    + destruct (tentarNumeros _ _ _ _ resto w1) as [[r w5] t5] eqn:Hr.
      intros [= -> <- <-]. exact (IH _ _ Hr).
Qed.

Lemma escritas_app (t1 t2 : list Evento) :
  escritas (t1 ++ t2) = (escritas t1 ++ escritas t2)%list.
Proof. apply filter_app. Qed.

Lemma ids_escritos_app (t1 t2 : list Evento) :
  ids_escritos (t1 ++ t2) = (ids_escritos t1 ++ ids_escritos t2)%list.
Proof. apply flat_map_app. Qed.

Lemma ids_escritos_escritas (t : list Evento) :
  ids_escritos (escritas t) = ids_escritos t.
Proof.
  induction t as [|[] t IH]; simpl; congruence.
Qed.

End LoopProps.

(** ** The claims on the loop *)

Section Claims.

Import Simulacao.
Import JsNumber.

Example run_diagnostico_lanca :
  processarContato simulado PICANHA "Oi" BIA (mundo [] [] [true] []) =
  (Lanca ERRO_REDE, mundo [] [] [] [],
   [EvUpdate 8 "2024-05-01T12:00:00.000Z" MENSAGEM_ERRO (Lanca ERRO_REDE)]).
Proof. reflexivity. Qed.

(** C3: fewer than ten digit characters give no candidate, and the contact is
    then processed without any call to the delivery client. *)
Theorem poucos_digitos_sem_tentativa (t : string) :
  (List.length (digitos t) < 10)%nat ->
  gerarNumerosAlternativos t = [] /\
  forall (W : Type) (amb : Ambiente W) imagem legenda i w,
    filter chamada_de_entrega
      (snd (processarContato amb imagem legenda
              {| id := i; telefone := VTexto t |} w))
    = [].
Proof.
  intros H. pose proof (gerar_poucos_digitos t H) as Hg.
  split; [exact Hg|]. intros W amb imagem legenda i w.
  rewrite (processarContato_eq amb imagem legenda
             {| id := i; telefone := VTexto t |} t w eq_refl), Hg.
  cbn [tentarNumeros]. unfold ret.
  destruct (amb_toISOString amb w) as [ts w2].
  destruct (amb_update amb _ ts _ w2) as [[u|e] w3]; [|reflexivity].
  now destruct (amb_random amb w3).
Qed.

Lemma poucos_digitos_sem_tentativa_witness :
  (List.length (digitos "98765-4321") < 10)%nat /\
  gerarNumerosAlternativos "98765-4321" = [] /\
  filter chamada_de_entrega
    (snd (processarContato simulado PICANHA "Oi"
            {| id := 9; telefone := VTexto "98765-4321" |}
            (mundo ["5598765432"] [] [] []))) = [].
Proof.
  assert (H : (List.length (digitos "98765-4321") < 10)%nat)
    by (vm_compute; lia).
  split; [exact H|]. split.
  - exact (proj1 (poucos_digitos_sem_tentativa "98765-4321" H)).
  - exact (proj2 (poucos_digitos_sem_tentativa "98765-4321" H)
             Mundo simulado PICANHA "Oi" 9%Z (mundo ["5598765432"] [] [] [])).
Defined.

(** C4: the first candidate is rejected by [getNumberId], the second passes
    it and the send to the second succeeds; the store then takes the write
    that records it. The candidate loop stops there, whatever candidates
    follow; the step of the contact sends once, to the second candidate, and
    its only write is the caption that was sent, acknowledged. *)
Theorem segundo_candidato_envia {W : Type} (amb : Ambiente W)
  (imagem : MessageMedia) (legenda : string) (contato : Contato)
  (n1 n2 : string) (v1 : Conclusao (option string)) (wid ts : string)
  (w0 w1 w2 w3 w4 w5 : W) :
  candidatos contato = [n1; n2] ->
  amb_getNumberId amb n1 w0 = (v1, w1) -> rejeita v1 = true ->
  amb_getNumberId amb n2 w1 = (Retorna (Some wid), w2) ->
  amb_sendMessage amb (n2 ++ "@c.us") imagem legenda w2 = (Retorna tt, w3) ->
  amb_toISOString amb w3 = (ts, w4) ->
  amb_update amb (id contato) ts legenda w4 = (Retorna tt, w5) ->
  (forall resto,
      tentarNumeros amb contato imagem legenda (n1 :: n2 :: resto) w0 =
      (Retorna true, w5,
       [EvGetNumberId n1 v1; EvGetNumberId n2 (Retorna (Some wid));
        EvSendMessage (n2 ++ "@c.us") imagem legenda (Retorna tt);
        EvUpdate (id contato) ts legenda (Retorna tt)])) /\
  exists w' t,
    processarContato amb imagem legenda contato w0 = (Retorna tt, w', t) /\
    filter envio t =
      [EvSendMessage (n2 ++ "@c.us") imagem legenda (Retorna tt)] /\
    escritas t = [EvUpdate (id contato) ts legenda (Retorna tt)].
Proof.
  intros Hg H1 Hrej H2 H3 H4 H5.
  assert (Hloop : forall resto,
      tentarNumeros amb contato imagem legenda (n1 :: n2 :: resto) w0 =
      (Retorna true, w5,
       [EvGetNumberId n1 v1; EvGetNumberId n2 (Retorna (Some wid));
        EvSendMessage (n2 ++ "@c.us") imagem legenda (Retorna tt);
        EvUpdate (id contato) ts legenda (Retorna tt)])).
  { intros resto.
    rewrite tentarNumeros_cons, (tentarNumero_rejeitado _ _ _ _ _ _ _ _ H1 Hrej).
    rewrite tentarNumeros_cons, tentarNumero_eq, H2, H3, H4, H5.
    reflexivity. }
  split; [exact Hloop|].
  destruct (candidatos_cons _ _ _ Hg) as (tel & Htel & Hgt).
  rewrite (processarContato_eq _ _ _ _ tel _ Htel), Hgt, (Hloop []).
  destruct (amb_random amb w5) as [r w6].
  eexists _, _. split; [reflexivity|].
  split; reflexivity.
Qed.

Lemma segundo_candidato_envia_witness :
  exists w' t,
    processarContato simulado PICANHA "Oi" ANA
      (mundo ["5511987654321"] [] [] []) = (Retorna tt, w', t) /\
    filter envio t =
      [EvSendMessage "5511987654321@c.us" PICANHA "Oi" (Retorna tt)] /\
    escritas t = [EvUpdate 7 "2024-05-01T12:00:00.000Z" "Oi" (Retorna tt)].
Proof.
  set (w := mundo ["5511987654321"] [] [] []).
  apply (proj2 (segundo_candidato_envia simulado PICANHA "Oi" ANA
                  "551187654321" "5511987654321" (Retorna None)
                  "5511987654321@c.us" "2024-05-01T12:00:00.000Z"
                  w w w w w w
                  eq_refl eq_refl eq_refl eq_refl eq_refl eq_refl eq_refl)).
Defined.

Example run_legenda_lanca :
  escritas (snd (processarContato simulado PICANHA "Oi" ANA
                   (mundo ["5511987654321"] [] [true] []))) =
  [EvUpdate 7 "2024-05-01T12:00:00.000Z" "Oi" (Lanca ERRO_REDE);
   EvUpdate 7 "2024-05-01T12:00:00.000Z" MENSAGEM_ERRO (Retorna tt)].
Proof. reflexivity. Qed.

Lemma surjective_pairing_3 {A B C : Type} (x : A * B * C) :
  x = (fst (fst x), snd (fst x), snd x).
Proof. now destruct x as [[a b] c]. Defined.

Lemma filter_app_nil {A : Type} (f : A -> bool) (l1 l2 : list A) :
  filter f (l1 ++ l2) = [] -> filter f l1 = [] /\ filter f l2 = [].
Proof. rewrite filter_app. apply app_eq_nil. Qed.



Lemma bind_chamada {W A B : Type} (f : W -> Conclusao A * W)
  (ev : Conclusao A -> Evento) (k : A -> M W B) (w : W) :
  exists r w' t, bind (chamada f ev) k w = (r, w', ev (fst (f w)) :: t).
Proof.
  unfold bind, chamada.
  destruct (f w) as [[a|e] w1]; cbn [fst].
  - destruct (k a w1) as [[r w2] t]. now exists r, w2, t.
  - now exists (Lanca e), w1, [].
Qed.

Lemma iteracao_comeca {W : Type} (amb : Ambiente W) (w : W) :
  exists r w' t,
    iteracao amb w = (r, w', EvSelect (fst (amb_select amb w)) :: t).
Proof. unfold iteracao, select_pendentes. apply bind_chamada. Qed.

Lemma loopDeEnvio_S {W : Type} (amb : Ambiente W) (n : nat) (w w1 : W)
  (t : list Evento) :
  iteracao amb w = (Retorna tt, w1, t) ->
  loopDeEnvio amb (S n) w =
  let '(r, w', t') := loopDeEnvio amb n w1 in (r, w', (t ++ t')%list).
Proof.
  intros H. cbn [loopDeEnvio]. unfold bind at 1. now rewrite H.
Qed.

(** C6: when the query resolves to an error, the iteration is the query and
    a wait of 10000 ms; when it resolves to no contact, the query and a wait
    of 30000 ms. Nothing else is called: no write to the store, no call to
    the delivery client. The loop then goes on from the world after the wait,
    and what it does next is the query again. *)
Theorem consulta_sem_contatos_espera {W : Type} (amb : Ambiente W)
  (w w1 : W) (resp : Resposta) (ms : spec_float) :
  amb_select amb w = (Retorna resp, w1) ->
  (error resp <> None /\ ms = Num 10000) \/
  (error resp = None /\ data resp = Some [] /\ ms = Num 30000) ->
  let espera := [EvSelect (Retorna resp); EvDelay ms] in
  let w2 := amb_setTimeout amb ms w1 in
  iteracao amb w = (Retorna tt, w2, espera) /\
  escritas espera = [] /\ filter chamada_de_entrega espera = [] /\
  (forall n, loopDeEnvio amb (S n) w =
             let '(r, w', t) := loopDeEnvio amb n w2 in
             (r, w', (espera ++ t)%list)) /\
  (forall n, exists r w' t,
      loopDeEnvio amb (S (S n)) w =
      (r, w', (espera ++ EvSelect (fst (amb_select amb w2)) :: t)%list)).
Proof.
  intros Hsel Hcaso espera w2.
  assert (Hit : iteracao amb w = (Retorna tt, w2, espera)).
  { unfold iteracao, bind, select_pendentes, chamada. rewrite Hsel.
    destruct Hcaso as [[Herr ->]|(Herr & Hdata & ->)].
    - destruct (error resp); [reflexivity|congruence].
    - rewrite Herr, Hdata. reflexivity. }
  split; [exact Hit|]. split; [reflexivity|]. split; [reflexivity|].
  split.
  - intros n. now apply loopDeEnvio_S.
  - intros n. rewrite (loopDeEnvio_S amb (S n) w w2 espera Hit).
    cbn [loopDeEnvio]. unfold bind at 1.
    destruct (iteracao_comeca amb w2) as (r & w3 & t & ->).
    destruct r as [[]|e].
    + destruct (loopDeEnvio amb n w3) as [[r' w4] t'].
      now exists r', w4, (t ++ t')%list.
    + now exists (Lanca e), w3, t.
Qed.


Lemma consulta_sem_contatos_espera_witness :
  iteracao simulado (mundo [] [] [] [Retorna RESPOSTA_ERRO]) =
    (Retorna tt, mundo [] [] [] [],
     [EvSelect (Retorna RESPOSTA_ERRO); EvDelay (Num 10000)]) /\
  iteracao simulado (mundo [] [] [] [Retorna RESPOSTA_VAZIA]) =
    (Retorna tt, mundo [] [] [] [],
     [EvSelect (Retorna RESPOSTA_VAZIA); EvDelay (Num 30000)]).
Proof.
  split.
  - apply (consulta_sem_contatos_espera simulado
             (mundo [] [] [] [Retorna RESPOSTA_ERRO]) (mundo [] [] [] [])
             RESPOSTA_ERRO (Num 10000) eq_refl).
    left. split; [discriminate|reflexivity].
  - apply (consulta_sem_contatos_espera simulado
             (mundo [] [] [] [Retorna RESPOSTA_VAZIA]) (mundo [] [] [] [])
             RESPOSTA_VAZIA (Num 30000) eq_refl).
    right. repeat split; reflexivity.
Defined.



(** C9: marking is not atomic with sending. When a candidate is validated,
    the send to it succeeds and the write that records it throws, the
    exception is caught in the candidate loop: the flag stays unset and the
    loop goes on with the next candidate, from the world the failed write
    left. A next candidate that is validated is sent to again. And when the
    remaining candidates leave the flag unset, the step goes on to write the
    diagnostic for a contact that was sent the message. *)
Theorem marcacao_nao_atomica {W : Type} (amb : Ambiente W)
  (imagem : MessageMedia) (legenda : string) (contato : Contato)
  (numero : string) (resto : list string) (wid ts : string) (e : Erro)
  (w0 w1 w2 w3 w4 : W) :
  amb_getNumberId amb numero w0 = (Retorna (Some wid), w1) ->
  amb_sendMessage amb (numero ++ "@c.us") imagem legenda w1 = (Retorna tt, w2) ->
  amb_toISOString amb w2 = (ts, w3) ->
  amb_update amb (id contato) ts legenda w3 = (Lanca e, w4) ->
  let entregue :=
    [EvGetNumberId numero (Retorna (Some wid));
     EvSendMessage (numero ++ "@c.us") imagem legenda (Retorna tt);
     EvUpdate (id contato) ts legenda (Lanca e)] in
  tentarNumeros amb contato imagem legenda (numero :: resto) w0 =
    (let '(r, w', t) := tentarNumeros amb contato imagem legenda resto w4 in
     (r, w', (entregue ++ t)%list)) /\
  (forall n2 resto2 wid2 w5 w6,
      resto = n2 :: resto2 ->
      amb_getNumberId amb n2 w4 = (Retorna (Some wid2), w5) ->
      amb_sendMessage amb (n2 ++ "@c.us") imagem legenda w5
        = (Retorna tt, w6) ->
      exists r w' t,
        tentarNumeros amb contato imagem legenda (numero :: resto) w0 =
        (r, w',
         (entregue ++
          EvGetNumberId n2 (Retorna (Some wid2)) ::
          EvSendMessage (n2 ++ "@c.us") imagem legenda (Retorna tt) :: t)%list))
  /\
  (forall w5 t5,
      candidatos contato = numero :: resto ->
      tentarNumeros amb contato imagem legenda resto w4
        = (Retorna false, w5, t5) ->
      exists r w' ts' u fim,
        processarContato amb imagem legenda contato w0 =
        (r, w',
         (entregue ++ t5 ++
          EvUpdate (id contato) ts' MENSAGEM_ERRO u :: fim)%list) /\
        escritas fim = []).
Proof.
  intros Hv Hs Hts Hu entregue.
  assert (Hcons :
    tentarNumeros amb contato imagem legenda (numero :: resto) w0 =
    (let '(r, w', t) := tentarNumeros amb contato imagem legenda resto w4 in
     (r, w', (entregue ++ t)%list))).
  { rewrite tentarNumeros_cons, tentarNumero_eq, Hv, Hs, Hts, Hu.
    reflexivity. }
  split; [exact Hcons|]. split.
  - intros n2 resto2 wid2 w5 w6 -> Hv2 Hs2. rewrite Hcons.
    rewrite tentarNumeros_cons, tentarNumero_eq, Hv2, Hs2.
    destruct (amb_toISOString amb w6) as [ts2 w7].
    destruct (amb_update amb _ ts2 legenda w7) as [[u|e2] w8].
    + now eexists _, _, _.
    + destruct (tentarNumeros _ _ _ _ resto2 w8) as [[r w9] t9].
      now eexists _, _, _.
  - intros w5 t5 Hg Hresto.
    destruct (candidatos_cons _ _ _ Hg) as (tel & Htel & Hgt).
    rewrite (processarContato_eq _ _ _ _ tel _ Htel), Hgt, Hcons, Hresto.
    destruct (amb_toISOString amb w5) as [ts' w6].
    destruct (amb_update amb _ ts' _ w6) as [[u|e'] w7].
    + destruct (amb_random amb w7) as [x w8].
      eexists _, _, ts', (Retorna u), _. rewrite <- app_assoc.
      split; reflexivity.
    + eexists _, _, ts', (Lanca e'), []. rewrite <- app_assoc.
      split; reflexivity.
Qed.

Lemma marcacao_nao_atomica_witness :
  exists r w' t,
    tentarNumeros simulado ANA PICANHA "Oi" ["551187654321"; "5511987654321"]
      (mundo ["551187654321"; "5511987654321"] [] [true] []) =
    (r, w',
     ([EvGetNumberId "551187654321" (Retorna (Some "551187654321@c.us"));
       EvSendMessage "551187654321@c.us" PICANHA "Oi" (Retorna tt);
       EvUpdate 7 "2024-05-01T12:00:00.000Z" "Oi" (Lanca ERRO_REDE)] ++
      EvGetNumberId "5511987654321" (Retorna (Some "5511987654321@c.us")) ::
      EvSendMessage "5511987654321@c.us" PICANHA "Oi" (Retorna tt) :: t)%list).
Proof.
  set (w := mundo ["551187654321"; "5511987654321"] [] [true] []).
  set (w4 := mundo ["551187654321"; "5511987654321"] [] [] []).
  apply (proj1 (proj2 (marcacao_nao_atomica simulado PICANHA "Oi" ANA
                         "551187654321" ["5511987654321"]
                         "551187654321@c.us" "2024-05-01T12:00:00.000Z"
                         ERRO_REDE w w w w w4
                         eq_refl eq_refl eq_refl eq_refl))
           "5511987654321" [] "5511987654321@c.us" w4 w4
           eq_refl eq_refl eq_refl).
Defined.

Example run_entregue_e_erro :
  processarContato simulado PICANHA "Oi"
    {| id := 7; telefone := VTexto "(11) 8765-4321" |}
    (mundo ["551187654321"] [] [true] []) =
  (Retorna tt, mundo ["551187654321"] [] [] [],
   [EvGetNumberId "551187654321" (Retorna (Some "551187654321@c.us"));
    EvSendMessage "551187654321@c.us" PICANHA "Oi" (Retorna tt);
    EvUpdate 7 "2024-05-01T12:00:00.000Z" "Oi" (Lanca ERRO_REDE);
    EvGetNumberId "5511987654321" (Retorna None);
    EvUpdate 7 "2024-05-01T12:00:00.000Z" MENSAGEM_ERRO (Retorna tt);
    EvDelay (Num 20000)]).
Proof. reflexivity. Qed.

End Claims.

(** ** The traces of the loop have the shapes above *)

Section FormasDoLoop.

Context {W : Type} (amb : Ambiente W).
Variables (imagem : MessageMedia) (legenda : string).

Lemma tentarNumero_forma (contato : Contato) (numero : string) (w : W) :
  exists c w' t,
    tentarNumero amb contato imagem legenda numero w = (Retorna c, w', t) /\
    forma_tentativa imagem legenda contato numero c t.
Proof.
  rewrite tentarNumero_eq.
  destruct (amb_getNumberId amb numero w) as [[[x|]|e] w1].
  - destruct (amb_sendMessage _ _ _ _ w1) as [[[]|e] w2].
    + destruct (amb_toISOString amb w2) as [ts w3].
      destruct (amb_update amb _ ts legenda w3) as [[[]|e] w4];
        eexists _, _, _; (split; [reflexivity|constructor]).
    + eexists _, _, _; (split; [reflexivity|constructor]).
  - eexists _, _, _; (split; [reflexivity|now constructor]).
  - eexists _, _, _; (split; [reflexivity|now constructor]).
Qed.

Lemma tentarNumeros_forma (contato : Contato) (tentativas : list string)
  (w : W) :
  exists b w' t,
    tentarNumeros amb contato imagem legenda tentativas w = (Retorna b, w', t)
    /\ forma_tentativas imagem legenda contato tentativas b t.
Proof.
  revert w. induction tentativas as [|numero resto IH]; intros w.
  - exists false, w, []. split; [reflexivity|constructor].
  - rewrite tentarNumeros_cons.
    destruct (tentarNumero_forma contato numero w) as (c & w1 & t1 & -> & F1).
    destruct c.
    + destruct (IH w1) as (b & w2 & t2 & -> & F2).
      exists b, w2, (t1 ++ t2)%list. split; [reflexivity|].
      now apply fts_continue.
    + exists true, w1, t1. split; [reflexivity|]. now apply fts_break.
Qed.

Lemma processarContato_forma (contato : Contato) (w w' : W)
  (r : Conclusao unit) (t : list Evento) :
  processarContato amb imagem legenda contato w = (r, w', t) ->
  forma_passo (sorteavel_em amb) imagem legenda contato r t.
Proof.
  destruct (gerarNumerosAlternativosDe (telefone contato)) as [l|e0] eqn:Hl.
  2:{ rewrite (processarContato_nao_texto _ _ _ _ _ _ Hl).
      intros [= <- _ <-]. now constructor. }
  destruct (telefone contato) as [tel| | |] eqn:Htel; try discriminate Hl.
  rewrite (processarContato_eq _ _ _ _ tel _ Htel).
  destruct (tentarNumeros_forma contato (gerarNumerosAlternativos tel) w)
    as (b & w1 & t1 & -> & F).
  destruct b.
  - destruct (amb_random amb w1) as [x w2] eqn:Hx.
    intros [= <- _ <-]. apply (fp_enviado _ _ _ _ tel); [exact Htel| |exact F].
    exists w1. now rewrite Hx.
  - destruct (amb_toISOString amb w1) as [ts w2].
    destruct (amb_update amb _ ts _ w2) as [[[]|e] w3].
    + destruct (amb_random amb w3) as [x w4] eqn:Hx.
      intros [= <- _ <-].
      apply (fp_diagnostico _ _ _ _ tel); [exact Htel| |exact F].
      exists w3. now rewrite Hx.
    + intros [= <- _ <-]. now apply (fp_lanca _ _ _ _ tel).
Qed.

Lemma processarContatos_forma (contatos : list Contato) (w w' : W)
  (r : Conclusao unit) (t : list Evento) :
  processarContatos amb imagem legenda contatos w = (r, w', t) ->
  forma_lote (sorteavel_em amb) imagem legenda contatos r t.
Proof.
  revert w w' r t. induction contatos as [|c resto IH]; intros w w' r t.
  - intros [= <- _ <-]. constructor.
  - cbn [processarContatos]. unfold bind at 1.
    destruct (processarContato amb imagem legenda c w) as [[r1 w1] t1] eqn:H1.
    apply processarContato_forma in H1.
    destruct r1 as [[]|e].
    + destruct (processarContatos amb imagem legenda resto w1)
        as [[r2 w2] t2] eqn:H2.
      intros [= <- _ <-]. apply fl_passo; [exact H1|exact (IH _ _ _ _ H2)].
    + intros [= <- _ <-]. now apply fl_lanca.
Qed.

End FormasDoLoop.

Section FormasDoLoop2.

Context {W : Type} (amb : Ambiente W).

Lemma iteracao_forma (w w' : W) (r : Conclusao unit) (t : list Evento) :
  iteracao amb w = (r, w', t) -> forma_iteracao (sorteavel_em amb) r t.
Proof.
  unfold iteracao, bind at 1, select_pendentes, chamada at 1.
  destruct (amb_select amb w) as [[resp|e] w1];
    [|intros [= <- _ <-]; constructor].
  destruct (error resp) as [err|] eqn:Herr.
  - intros [= <- _ <-]. constructor. congruence.
  - destruct (data resp) as [[|c resto]|] eqn:Hdata.
    + intros [= <- _ <-]. now constructor.
    + unfold bind at 1, chamada at 1.
      destruct (amb_fromFilePath amb imagemPath w1) as [[img|e] w2].
      * unfold bind at 1, chamada at 1.
        destruct (amb_readFileSync amb mensagemPath w2) as [[leg|e] w3].
        -- destruct (processarContatos amb img leg (c :: resto) w3)
             as [[r3 w4] t3] eqn:H3.
           apply processarContatos_forma in H3.
           intros [= <- _ <-].
           now apply (fi_lote _ resp (c :: resto) img leg).
        -- intros [= <- _ <-].
           now apply (fi_legenda_lanca _ resp (c :: resto)).
      * intros [= <- _ <-]. now apply (fi_imagem_lanca _ resp (c :: resto)).
    + intros [= <- _ <-]. now constructor.
Qed.

Lemma loopDeEnvio_forma (n : nat) (w w' : W) (r : Conclusao unit)
  (t : list Evento) :
  loopDeEnvio amb n w = (r, w', t) -> forma_loop (sorteavel_em amb) n r t.
Proof.
  revert w w' r t. induction n as [|n IH]; intros w w' r t.
  - intros [= <- _ <-]. constructor.
  - cbn [loopDeEnvio]. unfold bind at 1.
    destruct (iteracao amb w) as [[r1 w1] t1] eqn:H1.
    apply iteracao_forma in H1. destruct r1 as [[]|e].
    + destruct (loopDeEnvio amb n w1) as [[r2 w2] t2] eqn:H2.
      intros [= <- _ <-].
      apply flp_iteracao; [exact H1|exact (IH _ _ _ _ H2)].
    + intros [= <- _ <-]. now apply flp_lanca.
Qed.

End FormasDoLoop2.

(** * Further properties of the code *)

(** ** The normalizer *)

Lemma list_ascii_app (a b : string) :
  list_ascii_of_string (a ++ b) =
  (list_ascii_of_string a ++ list_ascii_of_string b)%list.
Proof. induction a as [|c a IH]; simpl; congruence. Qed.

Lemma length_append (a b : string) :
  String.length (a ++ b) = (String.length a + String.length b)%nat.
Proof. induction a as [|c a IH]; simpl; congruence. Qed.

Lemma length_string_of_list (l : list ascii) :
  String.length (string_of_list_ascii l) = List.length l.
Proof. induction l; simpl; congruence. Qed.

Lemma digitos_so_digitos (t : string) : forallb digito (digitos t) = true.
Proof.
  unfold digitos. apply forallb_forall. intros c Hc.
  now apply filter_In in Hc.
Qed.

Lemma sem_nove_forallb (f : ascii -> bool) (l : list ascii) :
  forallb f l = true -> forallb f (sem_nove l) = true.
Proof.
  destruct l as [|c l]; [auto|]. simpl. intros H.
  apply andb_prop in H as [Hc Hl].
  destruct c as [[] [] [] [] [] [] [] []]; simpl; rewrite ?Hc, ?Hl; auto.
Qed.

Lemma sem_nove_length (l : list ascii) :
  (List.length l <= S (List.length (sem_nove l)) /\
   List.length (sem_nove l) <= List.length l)%nat.
Proof.
  destruct l as [|c l]; [simpl; lia|].
  destruct c as [[] [] [] [] [] [] [] []]; simpl; lia.
Qed.

(** X1: every candidate is made of decimal digits only, whatever the raw
    phone string contains. *)
Theorem gerarNumerosAlternativos_so_algarismos (t : string) :
  forallb (fun c => forallb digito (list_ascii_of_string c))
    (gerarNumerosAlternativos t) = true.
Proof.
  rewrite gerar_por_digitos.
  pose proof (digitos_so_digitos t) as Hd.
  destruct (digitos t) as [|d1 [|d2 corpo]]; try reflexivity.
  destruct (_ <? 10)%nat; [reflexivity|].
  cbn [forallb] in Hd.
  apply andb_prop in Hd as [H1 Hd]. apply andb_prop in Hd as [H2 Hc].
  apply (sem_nove_forallb digito) in Hc.
  cbv zeta. cbn [forallb].
  rewrite !list_ascii_app, !list_ascii_of_string_of_list_ascii.
  rewrite !forallb_app. cbn [list_ascii_of_string forallb].
  rewrite H1, H2, Hc. reflexivity.
Qed.

(** X2: the result is empty exactly when the raw phone string has fewer than
    ten digits; otherwise it has exactly two candidates, the second one
    character longer than the first, and the first has one or two characters
    more than the string has digits. *)
Theorem gerarNumerosAlternativos_comprimentos (t : string) :
  match gerarNumerosAlternativos t with
  | [] => (List.length (digitos t) < 10)%nat
  | [c1; c2] =>
      (10 <= List.length (digitos t))%nat /\
      String.length c2 = S (String.length c1) /\
      (List.length (digitos t) + 1 <= String.length c1
       <= List.length (digitos t) + 2)%nat
  | _ => False
  end.
Proof.
  rewrite gerar_por_digitos.
  destruct (digitos t) as [|d1 [|d2 corpo]] eqn:E; try (simpl; lia).
  destruct (Nat.ltb_spec (List.length (d1 :: d2 :: corpo)) 10) as [Hlt|Hge];
    [exact Hlt|].
  cbv zeta. split; [exact Hge|].
  pose proof (sem_nove_length corpo) as Hs.
  rewrite !length_append, !length_string_of_list. simpl. lia.
Qed.

(** X3: a raw phone string with the mobile 9 after the area code and the
    same string without it have the same candidates, when the shorter one
    has its ten digits and the digit after the area code is not itself a 9. *)
Theorem gerarNumerosAlternativos_nove_opcional (t1 t2 : string)
  (d1 d2 : ascii) (corpo : list ascii) :
  digitos t1 = d1 :: d2 :: corpo ->
  digitos t2 = d1 :: d2 :: "9"%char :: corpo ->
  (8 <= List.length corpo)%nat ->
  (forall resto, corpo <> "9"%char :: resto) ->
  gerarNumerosAlternativos t1 = gerarNumerosAlternativos t2.
Proof.
  intros H1 H2 Hlen Hn9. rewrite !gerar_por_digitos, H1, H2.
  replace (_ <? 10)%nat with false
    by (symmetry; apply Nat.ltb_ge; simpl; lia).
  replace (_ <? 10)%nat with false
    by (symmetry; apply Nat.ltb_ge; simpl; lia).
  cbv zeta. cbn [sem_nove].
  replace (sem_nove corpo) with corpo; [reflexivity|].
  destruct corpo as [|c resto]; [reflexivity|].
  destruct c as [[] [] [] [] [] [] [] []]; try reflexivity.
  now destruct (Hn9 resto).
Qed.

Lemma gerarNumerosAlternativos_nove_opcional_witness :
  gerarNumerosAlternativos "(11) 8765-4321" =
  gerarNumerosAlternativos "(11) 98765-4321".
Proof.
  apply (gerarNumerosAlternativos_nove_opcional
           "(11) 8765-4321" "(11) 98765-4321" "1" "1"
           (list_ascii_of_string "87654321")).
  - vm_compute; reflexivity.
  - vm_compute; reflexivity.
  - simpl; lia.
  - intros resto H. discriminate H.
Defined.

(** ** The jittered delay *)

Section Sorteios.

Import JsNumber.
Local Open Scope Z_scope.

Lemma sorteio_para_tabela :
  todos (fun j => unitario (sorteio_para j)
                  && mesmo (tempo (sorteio_para j)) (Num (j + 10000)))
    (Z.to_nat 20001) 0 = true.
Proof. vm_compute. reflexivity. Qed.

(** X4: every whole number of milliseconds from 10000 to 30000 is the delay
    of some value [Math.random] may return: no value of the range is out of
    reach. *)
Theorem tempo_alcanca_todo_o_intervalo (ms : Z) :
  10000 <= ms <= 30000 ->
  exists r, unitario r = true /\ tempo r = Num ms.
Proof.
  intros Hms. exists (sorteio_para (ms - 10000)).
  assert (H : unitario (sorteio_para (ms - 10000))
              && mesmo (tempo (sorteio_para (ms - 10000)))
                   (Num (ms - 10000 + 10000)) = true)
    by (apply (todos_spec _ _ _ sorteio_para_tabela (ms - 10000)); lia).
  apply andb_prop in H as [Hu Hm].
  split; [exact Hu|].
  apply mesmo_eq in Hm. rewrite Hm. f_equal. lia.
Qed.

Lemma tempo_alcanca_todo_o_intervalo_witness :
  exists r, unitario r = true /\ tempo r = Num 12345.
Proof.
  apply (tempo_alcanca_todo_o_intervalo 12345). lia.
Defined.

End Sorteios.

(** ** What the step of a contact and a batch call *)

Section Eventos.

Variable sorteavel : spec_float -> Prop.
Variables (imagem : MessageMedia) (legenda : string).

Lemma forma_tentativa_eventos (contato : Contato) (numero : string)
  (c : Controle) (t : list Evento) :
  forma_tentativa imagem legenda contato numero c t ->
  In numero (candidatos contato) ->
  Forall (evento_do_passo imagem legenda contato) t.
Proof.
  intros F Hin.
  destruct F; repeat apply Forall_cons; try apply Forall_nil; cbn; eauto.
Qed.

Lemma forma_tentativas_eventos (contato : Contato) (l : list string)
  (b : bool) (t : list Evento) :
  forma_tentativas imagem legenda contato l b t ->
  (forall n, In n l -> In n (candidatos contato)) ->
  Forall (evento_do_passo imagem legenda contato) t.
Proof.
  intros F. induction F as [|numero resto b t1 t2 F1 F2 IH|numero resto t1 F1];
    intros Hin.
  - constructor.
  - apply Forall_app. split.
    + apply (forma_tentativa_eventos _ _ _ _ F1). apply Hin. now left.
    + apply IH. intros n Hn. apply Hin. now right.
  - apply (forma_tentativa_eventos _ _ _ _ F1). apply Hin. now left.
Qed.

Lemma forma_passo_eventos (contato : Contato) (r : Conclusao unit)
  (t : list Evento) :
  forma_passo sorteavel imagem legenda contato r t ->
  Forall (evento_do_passo imagem legenda contato) t.
Proof.
  intros F.
  destruct F as [e He|tel t1 x Htel _ F|tel t1 ts x Htel _ F|tel t1 ts e Htel F];
    [constructor| | |];
    apply Forall_app;
    (split;
     [apply (forma_tentativas_eventos _ _ _ _ F);
      now rewrite (candidatos_texto _ _ Htel)|]);
    repeat apply Forall_cons; try apply Forall_nil; cbn; eauto.
Qed.

Lemma forma_lote_eventos (contatos : list Contato) (r : Conclusao unit)
  (t : list Evento) :
  forma_lote sorteavel imagem legenda contatos r t ->
  Forall (evento_do_lote imagem legenda contatos) t.
Proof.
  intros F. induction F as [|c resto r t1 t2 F1 F2 IH|c resto e t1 F1].
  - constructor.
  - apply Forall_app. split.
    + apply forma_passo_eventos in F1.
      eapply Forall_impl; [|exact F1]. intros ev Hev. exists c. split;
        [now left|exact Hev].
    + eapply Forall_impl; [|exact IH]. intros ev (c' & Hc' & Hev).
      exists c'. split; [now right|exact Hev].
  - apply forma_passo_eventos in F1.
    eapply Forall_impl; [|exact F1]. intros ev Hev. exists c. split;
      [now left|exact Hev].
Qed.

End Eventos.

(** X6: what processing a batch calls. Every [getNumberId] is on a candidate
    of a contact of the batch, every send is of the image and the caption
    given, to a candidate of a contact of the batch followed by [@c.us], every
    write is to a contact of the batch, of the caption or of the diagnostic,
    and every wait is a delay of [delayAleatorio]. Nothing else is called:
    no query, no load of a file. *)
Theorem processarContatos_eventos {W : Type} (amb : Ambiente W)
  (imagem : MessageMedia) (legenda : string) (contatos : list Contato)
  (w : W) :
  Forall (evento_do_lote imagem legenda contatos)
    (snd (processarContatos amb imagem legenda contatos w)).
Proof.
  destruct (processarContatos amb imagem legenda contatos w)
    as [[r w'] t] eqn:H.
  apply processarContatos_forma in H. cbn [snd].
  exact (forma_lote_eventos _ _ _ _ _ _ H).
Qed.

(** ** The writes of the step of a contact *)

Section Escritas.

Variable sorteavel : spec_float -> Prop.
Variables (imagem : MessageMedia) (legenda : string).

Lemma forma_tentativa_escritas (contato : Contato) (numero : string)
  (c : Controle) (t : list Evento) :
  forma_tentativa imagem legenda contato numero c t ->
  match c with
  | Continue => forallb lancada (escritas t) = true
  | Break => exists ts, escritas t = [EvUpdate (id contato) ts legenda (Retorna tt)]
  end.
Proof. intros F. destruct F; cbn; eauto. Qed.

Lemma forma_tentativas_escritas (contato : Contato) (l : list string)
  (b : bool) (t : list Evento) :
  forma_tentativas imagem legenda contato l b t ->
  exists antes,
    forallb lancada antes = true /\
    if b then exists ts,
        escritas t = (antes ++ [EvUpdate (id contato) ts legenda (Retorna tt)])%list
    else escritas t = antes.
Proof.
  intros F. induction F as [|numero resto b t1 t2 F1 F2 IH|numero resto t1 F1].
  - now exists [].
  - apply forma_tentativa_escritas in F1.
    destruct IH as (antes & Ha & IH).
    exists (escritas t1 ++ antes)%list. split.
    + rewrite forallb_app, F1, Ha. reflexivity.
    + rewrite escritas_app. destruct b.
      * destruct IH as (ts & ->). exists ts. now rewrite app_assoc.
      * now rewrite IH.
  - apply forma_tentativa_escritas in F1 as (ts & ->).
    exists []. split; [reflexivity|now exists ts].
Qed.

Lemma forma_passo_escritas (contato : Contato) (r : Conclusao unit)
  (t : list Evento) :
  forma_passo sorteavel imagem legenda contato r t ->
  match r with
  | Retorna _ =>
      exists antes ts msg,
        escritas t
        = (antes ++ [EvUpdate (id contato) ts msg (Retorna tt)])%list /\
        forallb lancada antes = true /\
        (msg = legenda \/ msg = MENSAGEM_ERRO)
  | Lanca e =>
      forallb lancada (escritas t) = true /\
      (gerarNumerosAlternativosDe (telefone contato) = Lanca e /\ t = [] \/
       exists tel t0 ts,
         telefone contato = VTexto tel /\
         t = (t0 ++ [EvUpdate (id contato) ts MENSAGEM_ERRO (Lanca e)])%list)
  end.
Proof.
  intros F.
  destruct F as [e He|tel t1 x Htel _ F|tel t1 ts x Htel _ F|tel t1 ts e Htel F].
  - split; [reflexivity|]. now left.
  - apply forma_tentativas_escritas in F as (antes & Ha & ts & F).
    exists antes, ts, legenda. rewrite escritas_app, F. cbn.
    rewrite app_nil_r. auto.
  - apply forma_tentativas_escritas in F as (antes & Ha & F).
    exists antes, ts, MENSAGEM_ERRO. rewrite escritas_app, F. auto.
  - apply forma_tentativas_escritas in F as (antes & Ha & F). split.
    + rewrite escritas_app, F, forallb_app, Ha. reflexivity.
    + right. now exists tel, t1, ts.
Qed.

End Escritas.

(** X7: the writes of the step of a contact. When the step returns, all its
    writes but the last threw and the last one was acknowledged: it is the
    caption or the diagnostic, written to the contact, and no write follows
    it. When the step throws, no write of the step was acknowledged, and
    either the phone of the contact is not a string, the exception is the
    [TypeError] of [replace] and no call was made, or the last call is the
    write of the diagnostic and the exception is the one it threw. *)
Theorem processarContato_escritas {W : Type} (amb : Ambiente W)
  (imagem : MessageMedia) (legenda : string) (contato : Contato)
  (w w' : W) (r : Conclusao unit) (t : list Evento) :
  processarContato amb imagem legenda contato w = (r, w', t) ->
  match r with
  | Retorna _ =>
      exists antes ts msg,
        escritas t
        = (antes ++ [EvUpdate (id contato) ts msg (Retorna tt)])%list /\
        forallb lancada antes = true /\
        (msg = legenda \/ msg = MENSAGEM_ERRO)
  | Lanca e =>
      forallb lancada (escritas t) = true /\
      (gerarNumerosAlternativosDe (telefone contato) = Lanca e /\ t = [] \/
       exists tel t0 ts,
         telefone contato = VTexto tel /\
         t = (t0 ++ [EvUpdate (id contato) ts MENSAGEM_ERRO (Lanca e)])%list)
  end.
Proof.
  intros H. apply processarContato_forma in H.
  exact (forma_passo_escritas _ _ _ _ _ _ H).
Qed.

Lemma processarContato_escritas_witness :
  (exists antes ts msg,
      [EvUpdate 7 "2024-05-01T12:00:00.000Z" "Oi" (Lanca Simulacao.ERRO_REDE);
       EvUpdate 7 "2024-05-01T12:00:00.000Z" MENSAGEM_ERRO (Retorna tt)]
      = (antes ++ [EvUpdate 7 ts msg (Retorna tt)])%list /\
      forallb lancada antes = true /\
      (msg = "Oi" \/ msg = MENSAGEM_ERRO)) /\
  (forallb lancada (escritas []) = true /\
   (gerarNumerosAlternativosDe VNulo = Lanca TYPE_ERROR_REPLACE_NULO /\
    @nil Evento = [] \/
    exists tel t0 ts,
      VNulo = VTexto tel /\
      [] = (t0 ++ [EvUpdate 9 ts MENSAGEM_ERRO
                     (Lanca TYPE_ERROR_REPLACE_NULO)])%list)).
Proof.
  split.
  - exact (processarContato_escritas Simulacao.simulado Simulacao.PICANHA "Oi"
             Simulacao.ANA
             (Simulacao.mundo ["5511987654321"] [] [true] []) _ _ _ eq_refl).
  - exact (processarContato_escritas Simulacao.simulado Simulacao.PICANHA "Oi"
             Simulacao.CAIO
             (Simulacao.mundo [] [] [] []) _ _ _ eq_refl).
Defined.

(** ** How many sends and writes, and in which order the candidates *)

Lemma gerarNumerosAlternativos_no_maximo_dois (t : string) :
  (List.length (gerarNumerosAlternativos t) <= 2)%nat.
Proof.
  rewrite gerar_por_digitos.
  destruct (digitos t) as [|d1 [|d2 corpo]]; try (simpl; lia).
  destruct (_ <? 10)%nat; simpl; lia.
Qed.

Section Contagens.

Variable sorteavel : spec_float -> Prop.
Variables (imagem : MessageMedia) (legenda : string).

Lemma forma_tentativas_contagens (contato : Contato) (l : list string)
  (b : bool) (t : list Evento) :
  forma_tentativas imagem legenda contato l b t ->
  (List.length (filter envio t) <= List.length l)%nat /\
  (List.length (escritas t) <= List.length (filter envio_entregue t))%nat /\
  (exists resto, l = (numeros_validados t ++ resto)%list /\
                 (resto = [] \/ b = true)) /\
  (b = true -> existsb envio_entregue t = true).
Proof.
  intros F. induction F as [|numero resto b t1 t2 F1 F2 IH|numero resto t1 F1].
  - cbn. split; [lia|]. split; [lia|]. split; [|discriminate].
    exists []. auto.
  - destruct IH as (Hs & He & (r & Hr & Hb) & Hok).
    unfold escritas, numeros_validados in *.
    rewrite !filter_app, !length_app, flat_map_app, existsb_app.
    assert (H1 : (List.length (filter envio t1) <= 1)%nat /\
                 (List.length (filter escrita t1)
                  <= List.length (filter envio_entregue t1))%nat /\
                 flat_map (fun ev => match ev with
                                     | EvGetNumberId n _ => [n]
                                     | _ => []
                                     end) t1 = [numero])
      by (inversion F1; subst; cbn;
          (split; [lia|split; [lia|reflexivity]])).
    destruct H1 as (H1s & H1e & H1n). rewrite H1n. cbn [List.length].
    split; [lia|]. split; [lia|]. split.
    + exists r. split; [cbn; now f_equal|exact Hb].
    + intros Hbt. rewrite (Hok Hbt). apply orb_true_r.
  - inversion F1; subst. cbn. split; [lia|]. split; [lia|].
    split; [|reflexivity]. exists resto. auto.
Qed.

Lemma forma_passo_contagens (contato : Contato) (r : Conclusao unit)
  (t : list Evento) :
  forma_passo sorteavel imagem legenda contato r t ->
  (List.length (filter envio t) <= 2)%nat /\
  (List.length (escritas t) <= S (List.length (filter envio_entregue t)))%nat /\
  exists resto,
    candidatos contato = (numeros_validados t ++ resto)%list /\
    (resto = [] \/ existsb envio_entregue t = true).
Proof.
  intros F.
  destruct F as [e He|tel t1 x Htel _ F|tel t1 ts x Htel _ F|tel t1 ts e Htel F].
  { cbn. split; [lia|]. split; [lia|]. exists []. split; [|now left].
    unfold candidatos. now rewrite He. }
  all: pose proof (gerarNumerosAlternativos_no_maximo_dois tel) as H2;
    rewrite (candidatos_texto _ _ Htel);
    apply forma_tentativas_contagens in F
      as (Hs & He & (resto & Hr & Hb) & Hok);
    unfold escritas, numeros_validados in *;
    rewrite !filter_app, !length_app, flat_map_app, existsb_app; cbn;
    rewrite ?app_nil_r; (split; [lia|]); (split; [lia|]);
    exists resto; (split; [exact Hr|]).
  - right. now rewrite Hok.
  - destruct Hb as [Hb|Hb]; [now left|discriminate].
  - destruct Hb as [Hb|Hb]; [now left|discriminate].
Qed.

End Contagens.

(** X8: in the step of a contact at most two sends are made, one for each
    candidate, and the writes are at most one more than the sends that
    succeeded: a write of the caption after each of them, and the
    diagnostic. *)
Theorem processarContato_contagens {W : Type} (amb : Ambiente W)
  (imagem : MessageMedia) (legenda : string) (contato : Contato) (w : W) :
  let t := snd (processarContato amb imagem legenda contato w) in
  (List.length (filter envio t) <= 2)%nat /\
  (List.length (escritas t) <= S (List.length (filter envio_entregue t)))%nat.
Proof.
  destruct (processarContato amb imagem legenda contato w)
    as [[r w'] t] eqn:H.
  apply processarContato_forma in H. cbn [snd].
  destruct (forma_passo_contagens _ _ _ _ _ _ H) as (Hs & He & _). auto.
Qed.

(** X9: the numbers passed to [getNumberId] in the step of a contact are the
    candidates of its phone, from the first on, in their order and once each;
    candidates are left untried only when a send succeeded. *)
Theorem processarContato_candidatos_em_ordem {W : Type} (amb : Ambiente W)
  (imagem : MessageMedia) (legenda : string) (contato : Contato) (w : W) :
  let t := snd (processarContato amb imagem legenda contato w) in
  exists resto,
    candidatos contato = (numeros_validados t ++ resto)%list /\
    (resto = [] \/ existsb envio_entregue t = true).
Proof.
  destruct (processarContato amb imagem legenda contato w)
    as [[r w'] t] eqn:H.
  apply processarContato_forma in H. cbn [snd].
  destruct (forma_passo_contagens _ _ _ _ _ _ H) as (_ & _ & Hr). exact Hr.
Qed.

(** ** Where an exception leaves the batch and the loop *)

Lemma evento_do_lote_sem_consulta (imagem : MessageMedia) (legenda : string)
  (contatos : list Contato) (t : list Evento) :
  Forall (evento_do_lote imagem legenda contatos) t ->
  forallb (fun ev => negb (consulta ev)) t = true.
Proof.
  intros H. apply forallb_forall. intros ev Hin.
  rewrite Forall_forall in H. destruct (H ev Hin) as (c & _ & Hev).
  now destruct ev.
Qed.

Section Excecoes.

Variable sorteavel : spec_float -> Prop.

Lemma forma_passo_lanca (imagem : MessageMedia) (legenda : string)
  (contato : Contato) (e : Erro) (t : list Evento) :
  forma_passo sorteavel imagem legenda contato (Lanca e) t ->
  gerarNumerosAlternativosDe (telefone contato) = Lanca e /\ t = [] \/
  exists t0 ts,
    t = (t0 ++ [EvUpdate (id contato) ts MENSAGEM_ERRO (Lanca e)])%list.
Proof. intros F. inversion F; subst; [now left|right; eauto]. Qed.

Lemma evento_do_lote_mais (imagem : MessageMedia) (legenda : string)
  (c : Contato) (cs : list Contato) (t : list Evento) :
  Forall (evento_do_lote imagem legenda cs) t ->
  Forall (evento_do_lote imagem legenda (c :: cs)) t.
Proof.
  intros H. eapply Forall_impl; [|exact H]. intros ev (c0 & Hc0 & Hev).
  exists c0. split; [now right|exact Hev].
Qed.

Lemma evento_do_passo_lote (imagem : MessageMedia) (legenda : string)
  (c : Contato) (cs : list Contato) (t : list Evento) :
  Forall (evento_do_passo imagem legenda c) t ->
  Forall (evento_do_lote imagem legenda (c :: cs)) t.
Proof.
  intros H. eapply Forall_impl; [|exact H]. intros ev Hev.
  exists c. split; [now left|exact Hev].
Qed.

Lemma forma_lote_lanca (imagem : MessageMedia) (legenda : string)
  (contatos : list Contato) (e : Erro) (t : list Evento) :
  forma_lote sorteavel imagem legenda contatos (Lanca e) t ->
  exists antes c depois,
    contatos = (antes ++ c :: depois)%list /\
    Forall (evento_do_lote imagem legenda (antes ++ [c])) t /\
    (gerarNumerosAlternativosDe (telefone c) = Lanca e /\
     Forall (evento_do_lote imagem legenda antes) t \/
     exists t0 ts,
       t = (t0 ++ [EvUpdate (id c) ts MENSAGEM_ERRO (Lanca e)])%list).
Proof.
  intros F. remember (Lanca e) as r eqn:Hr.
  induction F as [|c resto r t1 t2 F1 F2 IH|c resto e' t1 F1];
    [discriminate Hr| |].
  - destruct (IH Hr) as (antes & c' & depois & -> & Hev & Hfim).
    apply forma_passo_eventos in F1.
    exists (c :: antes), c', depois.
    split; [reflexivity|]. split.
    + apply Forall_app. split;
        [now apply evento_do_passo_lote|now apply evento_do_lote_mais].
    + destruct Hfim as [[He Hantes]|(t0 & ts & ->)].
      * left. split; [exact He|]. apply Forall_app. split;
          [now apply evento_do_passo_lote|now apply evento_do_lote_mais].
      * right. exists (t1 ++ t0)%list, ts. now rewrite app_assoc.
  - injection Hr as ->.
    exists [], c, resto. split; [reflexivity|]. split.
    + apply forma_passo_eventos in F1. now apply evento_do_passo_lote.
    + destruct (forma_passo_lanca _ _ _ _ _ F1) as [[He ->]|(t0 & ts & Ht)].
      * left. now split.
      * right. now exists t0, ts.
Qed.

Lemma forma_iteracao_lanca (e : Erro) (t : list Evento) :
  forma_iteracao sorteavel (Lanca e) t -> fim_da_execucao e t.
Proof.
  intros F. inversion F as [e'| | resp Herr Hdata| | resp cs e' Herr Hdata Hcs
                           | resp cs img e' Herr Hdata Hcs
                           | resp cs img leg r t' Herr Hdata Hcs FL]; subst.
  - left. exists [], (EvSelect (Lanca e)). now split.
  - left. exists [], (EvSelect (Retorna resp)). now split.
  - left.
    exists [EvSelect (Retorna resp)], (EvFromFilePath imagemPath (Lanca e)).
    now split.
  - left.
    exists [EvSelect (Retorna resp); EvFromFilePath imagemPath (Retorna img)],
      (EvReadFileSync mensagemPath (Lanca e)). now split.
  - pose proof (forma_lote_eventos _ _ _ _ _ _ FL) as Hlote.
    apply evento_do_lote_sem_consulta in Hlote.
    destruct (forma_lote_lanca _ _ _ _ _ FL)
      as (antes & c & depois & Hcs' & _ & [[He _]|(t0 & ts & ->)]).
    + right.
      exists [], resp, cs, c,
        (EvFromFilePath imagemPath (Retorna img)
         :: EvReadFileSync mensagemPath (Retorna leg) :: t').
      split; [reflexivity|]. split; [exact Hdata|]. split.
      * rewrite Hcs'. apply in_or_app. right. now left.
      * split; [exact He|exact Hlote].
    + left. eexists (_ ++ t0)%list, _.
      split; [now rewrite app_assoc|]. now split.
Qed.

Lemma forma_loop_lanca (n : nat) (e : Erro) (t : list Evento) :
  forma_loop sorteavel n (Lanca e) t -> fim_da_execucao e t.
Proof.
  intros F. remember (Lanca e) as r eqn:Hr.
  induction F as [|n r t1 t2 F1 F2 IH|n e' t1 F1]; [discriminate Hr| |].
  - destruct (IH Hr) as [(t0 & ev & -> & Hf)
                        |(t0 & resp & cs & c & t3 & -> & H)].
    + left. exists (t1 ++ t0)%list, ev.
      split; [now rewrite app_assoc|exact Hf].
    + right. exists (t1 ++ t0)%list, resp, cs, c, t3.
      split; [now rewrite app_assoc|exact H].
  - injection Hr as ->. now apply forma_iteracao_lanca.
Qed.

End Excecoes.

(** X10: when processing a batch throws, it stops at one of its contacts.
    Either the phone of that contact is not a string: the exception is the
    [TypeError] of [replace], and the calls made are all for the contacts
    before it. Or the write of its diagnostic threw that exception: the
    trace ends there. In both cases the contacts after it are not
    processed. *)
Theorem processarContatos_interrompido {W : Type} (amb : Ambiente W)
  (imagem : MessageMedia) (legenda : string) (contatos : list Contato)
  (w w' : W) (e : Erro) (t : list Evento) :
  processarContatos amb imagem legenda contatos w = (Lanca e, w', t) ->
  exists antes c depois,
    contatos = (antes ++ c :: depois)%list /\
    Forall (evento_do_lote imagem legenda (antes ++ [c])) t /\
    (gerarNumerosAlternativosDe (telefone c) = Lanca e /\
     Forall (evento_do_lote imagem legenda antes) t \/
     exists t0 ts,
       t = (t0 ++ [EvUpdate (id c) ts MENSAGEM_ERRO (Lanca e)])%list).
Proof.
  intros H. apply processarContatos_forma in H.
  exact (forma_lote_lanca _ _ _ _ _ _ H).
Qed.

Lemma processarContatos_interrompido_witness :
  exists antes c depois,
    [Simulacao.BIA; Simulacao.CAIO; Simulacao.ANA]
    = (antes ++ c :: depois)%list /\
    Forall (evento_do_lote Simulacao.PICANHA "Oi" (antes ++ [c]))
      [EvUpdate 8 "2024-05-01T12:00:00.000Z" MENSAGEM_ERRO (Retorna tt);
       EvDelay (JsNumber.Num 20000)] /\
    (gerarNumerosAlternativosDe (telefone c)
     = Lanca TYPE_ERROR_REPLACE_NULO /\
     Forall (evento_do_lote Simulacao.PICANHA "Oi" antes)
       [EvUpdate 8 "2024-05-01T12:00:00.000Z" MENSAGEM_ERRO (Retorna tt);
        EvDelay (JsNumber.Num 20000)] \/
     exists t0 ts,
       [EvUpdate 8 "2024-05-01T12:00:00.000Z" MENSAGEM_ERRO (Retorna tt);
        EvDelay (JsNumber.Num 20000)]
       = (t0 ++ [EvUpdate (id c) ts MENSAGEM_ERRO
                   (Lanca TYPE_ERROR_REPLACE_NULO)])%list).
Proof.
  exact (processarContatos_interrompido Simulacao.simulado Simulacao.PICANHA
           "Oi" [Simulacao.BIA; Simulacao.CAIO; Simulacao.ANA]
           (Simulacao.mundo ["5511987654321"] [] [] []) _ _ _ eq_refl).
Defined.

(** X11: the exceptions that end the loop. When a run of the loop throws,
    either the last call made is one of: the query, which threw; the query,
    which resolved to neither an error nor rows, and the exception is the
    [TypeError] of reading [length]; the load of the image or of the caption,
    which threw; the write of the diagnostic, which threw. Or the exception
    is the [TypeError] of [replace] on the phone, not a string, of a row of
    the last batch fetched. An exception of [getNumberId], of [sendMessage]
    or of the write of the caption never leaves the loop. *)
Theorem loopDeEnvio_excecoes {W : Type} (amb : Ambiente W) (n : nat)
  (w w' : W) (e : Erro) (t : list Evento) :
  loopDeEnvio amb n w = (Lanca e, w', t) ->
  (exists t0 ev, t = (t0 ++ [ev])%list /\ fatal e ev) \/
  (exists t0 resp contatos c t1,
      t = (t0 ++ EvSelect (Retorna resp) :: t1)%list /\
      data resp = Some contatos /\ In c contatos /\
      gerarNumerosAlternativosDe (telefone c) = Lanca e /\
      forallb (fun ev => negb (consulta ev)) t1 = true).
Proof.
  intros H. apply loopDeEnvio_forma in H.
  exact (forma_loop_lanca _ _ _ _ H).
Qed.

Lemma loopDeEnvio_excecoes_witness :
  (exists t0 ev,
      [EvSelect (Retorna Simulacao.RESPOSTA_VAZIA);
       EvDelay (JsNumber.Num 30000);
       EvSelect (Lanca Simulacao.ERRO_REDE)] = (t0 ++ [ev])%list /\
      fatal Simulacao.ERRO_REDE ev) \/
  (exists t0 resp contatos c t1,
      [EvSelect (Retorna Simulacao.RESPOSTA_VAZIA);
       EvDelay (JsNumber.Num 30000);
       EvSelect (Lanca Simulacao.ERRO_REDE)]
      = (t0 ++ EvSelect (Retorna resp) :: t1)%list /\
      data resp = Some contatos /\ In c contatos /\
      gerarNumerosAlternativosDe (telefone c) = Lanca Simulacao.ERRO_REDE /\
      forallb (fun ev => negb (consulta ev)) t1 = true).
Proof.
  exact (loopDeEnvio_excecoes Simulacao.simulado 5
           (Simulacao.mundo [] [] []
              [Retorna Simulacao.RESPOSTA_VAZIA; Lanca Simulacao.ERRO_REDE])
           _ _ _ eq_refl).
Defined.

(** ** Sends come after a validation *)

Section Validacao.

Variable sorteavel : spec_float -> Prop.

Lemma envios_validados_app (a : option Evento) (t1 t2 : list Evento) :
  envios_validados a t1 = true ->
  (forall a', envios_validados a' t2 = true) ->
  envios_validados a (t1 ++ t2) = true.
Proof.
  revert a. induction t1 as [|ev t1 IH]; intros a H1 H2; [apply H2|].
  cbn [app envios_validados] in *.
  apply andb_prop in H1 as [H H1]. rewrite H. now apply IH.
Qed.

Lemma forma_tentativa_validados (imagem : MessageMedia) (legenda : string)
  (contato : Contato) (numero : string) (c : Controle) (t : list Evento)
  (a : option Evento) :
  forma_tentativa imagem legenda contato numero c t ->
  envios_validados a t = true.
Proof. intros F. destruct F; cbn; now rewrite ?String.eqb_refl. Qed.

Lemma forma_tentativas_validados (imagem : MessageMedia) (legenda : string)
  (contato : Contato) (l : list string) (b : bool) (t : list Evento)
  (a : option Evento) :
  forma_tentativas imagem legenda contato l b t ->
  envios_validados a t = true.
Proof.
  intros F. revert a.
  induction F as [|numero resto b t1 t2 F1 F2 IH|numero resto t1 F1]; intros a.
  - reflexivity.
  - apply envios_validados_app; [|exact IH].
    exact (forma_tentativa_validados _ _ _ _ _ _ _ F1).
  - exact (forma_tentativa_validados _ _ _ _ _ _ _ F1).
Qed.

Lemma forma_passo_validados (imagem : MessageMedia) (legenda : string)
  (contato : Contato) (r : Conclusao unit) (t : list Evento)
  (a : option Evento) :
  forma_passo sorteavel imagem legenda contato r t ->
  envios_validados a t = true.
Proof.
  intros F.
  destruct F as [e He|tel t1 x _ _ F|tel t1 ts x _ _ F|tel t1 ts e _ F];
    [reflexivity| | |];
    (apply envios_validados_app;
     [exact (forma_tentativas_validados _ _ _ _ _ _ _ F)|reflexivity]).
Qed.

Lemma forma_lote_validados (imagem : MessageMedia) (legenda : string)
  (contatos : list Contato) (r : Conclusao unit) (t : list Evento)
  (a : option Evento) :
  forma_lote sorteavel imagem legenda contatos r t ->
  envios_validados a t = true.
Proof.
  intros F. revert a.
  induction F as [|c resto r t1 t2 F1 F2 IH|c resto e t1 F1]; intros a.
  - reflexivity.
  - apply envios_validados_app; [|exact IH].
    exact (forma_passo_validados _ _ _ _ _ _ F1).
  - exact (forma_passo_validados _ _ _ _ _ _ F1).
Qed.

Lemma forma_iteracao_validados (r : Conclusao unit) (t : list Evento)
  (a : option Evento) :
  forma_iteracao sorteavel r t -> envios_validados a t = true.
Proof.
  intros F. destruct F; try reflexivity.
  change (envios_validados a
            ([EvSelect (Retorna resp);
              EvFromFilePath imagemPath (Retorna imagem);
              EvReadFileSync mensagemPath (Retorna legenda)] ++ t) = true).
  apply envios_validados_app; [reflexivity|].
  intros a'. now apply (forma_lote_validados imagem legenda contatos r).
Qed.

Lemma forma_loop_validados (n : nat) (r : Conclusao unit) (t : list Evento)
  (a : option Evento) :
  forma_loop sorteavel n r t -> envios_validados a t = true.
Proof.
  intros F. revert a.
  induction F as [|n r t1 t2 F1 F2 IH|n e t1 F1]; intros a.
  - reflexivity.
  - apply envios_validados_app; [|exact IH].
    exact (forma_iteracao_validados _ _ _ F1).
  - exact (forma_iteracao_validados _ _ _ F1).
Qed.

Lemma envios_validados_anterior (a : option Evento) (t1 t2 : list Evento)
  (chat : string) (m : MessageMedia) (cap : string) (u : Conclusao unit) :
  envios_validados a (t1 ++ EvSendMessage chat m cap u :: t2) = true ->
  exists numero wid,
    ultimo a t1 = Some (EvGetNumberId numero (Retorna (Some wid))) /\
    chat = numero ++ "@c.us".
Proof.
  revert a. induction t1 as [|ev t1 IH]; intros a H.
  - cbn in H. apply andb_prop in H as [H _].
    destruct a as [[| |numero [[wid|]|]| | | |]|]; try discriminate H.
    apply String.eqb_eq in H. now exists numero, wid.
  - cbn [app envios_validados] in H. apply andb_prop in H as [_ H].
    exact (IH _ H).
Qed.

Lemma ultimo_app (a : option Evento) (t : list Evento) (ev : Evento) :
  ultimo a t = Some ev -> a = Some ev /\ t = [] \/ exists t0, t = (t0 ++ [ev])%list.
Proof.
  revert a. induction t as [|x t IH]; intros a H; [now left|].
  right. cbn in H. destruct (IH _ H) as [[[= ->] ->]|(t0 & ->)].
  - now exists [].
  - now exists (x :: t0).
Qed.

End Validacao.

(** X5: the loop sends only to a number it has just validated. In a run of
    the loop, the call before a [sendMessage] is the [getNumberId] of a
    number, which resolved to an account, and the send is addressed to that
    number followed by [@c.us]. *)
Theorem loopDeEnvio_envia_so_validados {W : Type} (amb : Ambiente W)
  (n : nat) (w : W) (t1 t2 : list Evento) (chat : string) (m : MessageMedia)
  (cap : string) (u : Conclusao unit) :
  snd (loopDeEnvio amb n w) = (t1 ++ EvSendMessage chat m cap u :: t2)%list ->
  exists t0 numero wid,
    t1 = (t0 ++ [EvGetNumberId numero (Retorna (Some wid))])%list /\
    chat = numero ++ "@c.us".
Proof.
  intros Ht.
  destruct (loopDeEnvio amb n w) as [[r w'] t] eqn:H.
  apply loopDeEnvio_forma in H. cbn [snd] in Ht. subst t.
  pose proof (forma_loop_validados _ _ _ _ None H) as Hv.
  apply envios_validados_anterior in Hv as (numero & wid & Hu & Hchat).
  apply ultimo_app in Hu as [[[=] _]|(t0 & ->)].
  now exists t0, numero, wid.
Qed.

Lemma loopDeEnvio_envia_so_validados_witness :
  exists t0 numero wid,
    [EvSelect (Retorna LOTE_ANA);
     EvFromFilePath imagemPath (Retorna Simulacao.PICANHA);
     EvReadFileSync mensagemPath (Retorna "Oferta da semana");
     EvGetNumberId "551187654321" (Retorna None);
     EvGetNumberId "5511987654321" (Retorna (Some "5511987654321@c.us"))]
    = (t0 ++ [EvGetNumberId numero (Retorna (Some wid))])%list /\
    "5511987654321@c.us" = numero ++ "@c.us".
Proof.
  refine (loopDeEnvio_envia_so_validados Simulacao.simulado 1
            (Simulacao.mundo ["5511987654321"] [] [] [Retorna LOTE_ANA])
            _ _ _ _ _ _ _).
  vm_compute. reflexivity.
Defined.

(** ** The waits of the loop *)

Section Esperas.

Variable sorteavel : spec_float -> Prop.

Lemma consultas_espacadas_sem_consulta (b : bool) (t tl : list Evento) :
  forallb (fun ev => negb (consulta ev)) t = true ->
  consultas_espacadas b (t ++ tl)
  = consultas_espacadas (b || existsb espera t) tl.
Proof.
  revert b. induction t as [|ev t IH]; intros b H.
  - cbn. now rewrite orb_false_r.
  - cbn [forallb] in H. apply andb_prop in H as [Hev H].
    destruct ev; try discriminate Hev; cbn; rewrite (IH _ H); try reflexivity.
    now rewrite orb_true_r.
Qed.

Lemma forma_passo_espera (imagem : MessageMedia) (legenda : string)
  (contato : Contato) (t : list Evento) :
  forma_passo sorteavel imagem legenda contato (Retorna tt) t ->
  existsb espera t = true.
Proof.
  intros F. inversion F; subst; rewrite existsb_app; cbn;
    apply orb_true_r.
Qed.

(** An iteration is a query and calls that are not queries; when it returns,
    a wait is among them. *)
Lemma forma_iteracao_consulta (r : Conclusao unit) (t : list Evento) :
  forma_iteracao sorteavel r t ->
  exists x t',
    t = EvSelect x :: t' /\
    forallb (fun ev => negb (consulta ev)) t' = true /\
    (r = Retorna tt -> existsb espera t' = true).
Proof.
  intros F.
  destruct F as [e|resp Herr|resp Herr Hdata|resp Herr Hdata
                |resp cs e Herr Hdata Hcs|resp cs img e Herr Hdata Hcs
                |resp cs img leg r t Herr Hdata Hcs FL];
    try (eexists _, _; split; [reflexivity|]; split; [reflexivity|];
         first [discriminate|reflexivity]).
  eexists _, _. split; [reflexivity|].
  pose proof (forma_lote_eventos _ _ _ _ _ _ FL) as Hev.
  apply evento_do_lote_sem_consulta in Hev.
  split; [cbn; exact Hev|].
  intros ->. cbn.
  inversion FL as [|c resto r' t1 t2 F1 F2|]; subst; [congruence|].
  rewrite existsb_app, (forma_passo_espera _ _ _ _ F1). reflexivity.
Qed.

Lemma forma_loop_espacadas (n : nat) (r : Conclusao unit) (t : list Evento) :
  forma_loop sorteavel n r t -> consultas_espacadas true t = true.
Proof.
  intros F. induction F as [|n r t1 t2 F1 F2 IH|n e t1 F1].
  - reflexivity.
  - destruct (forma_iteracao_consulta _ _ F1) as (x & t' & -> & Hsem & Hesp).
    cbn [app consultas_espacadas andb].
    rewrite (consultas_espacadas_sem_consulta _ _ _ Hsem), (Hesp eq_refl).
    exact IH.
  - destruct (forma_iteracao_consulta _ _ F1) as (x & t' & -> & Hsem & _).
    cbn [consultas_espacadas andb].
    rewrite <- (app_nil_r t'), (consultas_espacadas_sem_consulta _ _ _ Hsem).
    reflexivity.
Qed.

Lemma consultas_espacadas_entre (t2 t3 : list Evento)
  (r2 : Conclusao Resposta) :
  consultas_espacadas false (t2 ++ EvSelect r2 :: t3) = true ->
  exists ms, In (EvDelay ms) t2.
Proof.
  induction t2 as [|ev t2 IH]; intros H; [discriminate H|].
  destruct ev; cbn in H; try discriminate H;
    try (destruct (IH H) as (ms & Hin); exists ms; now right).
  eexists. now left.
Qed.

Lemma consultas_espacadas_depois (b : bool) (t1 t : list Evento) :
  consultas_espacadas b (t1 ++ t) = true ->
  exists b', consultas_espacadas b' t = true.
Proof.
  revert b. induction t1 as [|ev t1 IH]; intros b H; [now exists b|].
  destruct ev; cbn in H; try exact (IH _ H).
  apply andb_prop in H as [_ H]. exact (IH _ H).
Qed.

Lemma forma_tentativas_sem_espera (imagem : MessageMedia) (legenda : string)
  (contato : Contato) (l : list string) (b : bool) (t : list Evento)
  (ms : spec_float) :
  forma_tentativas imagem legenda contato l b t -> ~ In (EvDelay ms) t.
Proof.
  intros F.
  induction F as [|numero resto b t1 t2 F1 F2 IH|numero resto t1 F1];
    intros Hin.
  - destruct Hin.
  - apply in_app_or in Hin as [Hin|Hin]; [|exact (IH Hin)].
    destruct F1; cbn in Hin; intuition discriminate.
  - destruct F1; cbn in Hin; intuition discriminate.
Qed.

Lemma forma_passo_esperas (imagem : MessageMedia) (legenda : string)
  (contato : Contato) (r : Conclusao unit) (t : list Evento)
  (ms : spec_float) :
  forma_passo sorteavel imagem legenda contato r t ->
  In (EvDelay ms) t -> exists x, sorteavel x /\ ms = tempo x.
Proof.
  intros F Hin.
  destruct F as [e He|tel t1 x _ Hx F|tel t1 ts x _ Hx F|tel t1 ts e _ F];
    [destruct Hin| | |];
    apply in_app_or in Hin as [Hin|Hin];
    try (now destruct (forma_tentativas_sem_espera _ _ _ _ _ _ ms F));
    cbn in Hin.
  - destruct Hin as [[= <-]|[]]. eauto.
  - destruct Hin as [Hin|[[= <-]|[]]]; [discriminate Hin|eauto].
  - destruct Hin as [Hin|[]]. discriminate Hin.
Qed.

Lemma forma_lote_esperas (imagem : MessageMedia) (legenda : string)
  (contatos : list Contato) (r : Conclusao unit) (t : list Evento)
  (ms : spec_float) :
  forma_lote sorteavel imagem legenda contatos r t ->
  In (EvDelay ms) t -> exists x, sorteavel x /\ ms = tempo x.
Proof.
  intros F.
  induction F as [|c resto r t1 t2 F1 F2 IH|c resto e t1 F1]; intros Hin.
  - destruct Hin.
  - apply in_app_or in Hin as [Hin|Hin]; [|exact (IH Hin)].
    exact (forma_passo_esperas _ _ _ _ _ _ F1 Hin).
  - exact (forma_passo_esperas _ _ _ _ _ _ F1 Hin).
Qed.

Lemma forma_iteracao_esperas (r : Conclusao unit) (t : list Evento)
  (ms : spec_float) :
  forma_iteracao sorteavel r t ->
  In (EvDelay ms) t ->
  ms = JsNumber.Num 10000 \/ ms = JsNumber.Num 30000 \/
  exists x, sorteavel x /\ ms = tempo x.
Proof.
  intros F Hin.
  destruct F as [e|resp Herr|resp Herr Hdata|resp Herr Hdata
                |resp cs e Herr Hdata Hcs|resp cs img e Herr Hdata Hcs
                |resp cs img leg r t Herr Hdata Hcs FL];
    cbn in Hin; try (intuition discriminate).
  - destruct Hin as [Hin|[[= <-]|[]]]; [discriminate Hin|now left].
  - destruct Hin as [Hin|[[= <-]|[]]]; [discriminate Hin|]. right. now left.
  - destruct Hin as [Hin|[Hin|[Hin|Hin]]]; try discriminate.
    right. right. exact (forma_lote_esperas _ _ _ _ _ _ FL Hin).
Qed.

Lemma forma_loop_esperas (n : nat) (r : Conclusao unit) (t : list Evento)
  (ms : spec_float) :
  forma_loop sorteavel n r t ->
  (forall x, sorteavel x -> JsNumber.unitario x = true) ->
  In (EvDelay ms) t ->
  exists k, ms = JsNumber.Num k /\ (10000 <= k <= 30000)%Z.
Proof.
  intros F Hs.
  assert (Hit : forall r0 t0,
             forma_iteracao sorteavel r0 t0 -> In (EvDelay ms) t0 ->
             exists k, ms = JsNumber.Num k /\ (10000 <= k <= 30000)%Z).
  { intros r0 t0 F0 H0.
    destruct (forma_iteracao_esperas _ _ _ F0 H0) as [->|[->|(x & Hx & ->)]].
    - exists 10000%Z. split; [reflexivity|lia].
    - exists 30000%Z. split; [reflexivity|lia].
    - now apply tempo_limites, Hs. }
  induction F as [|n r t1 t2 F1 F2 IH|n e t1 F1]; intros Hin.
  - destruct Hin.
  - apply in_app_or in Hin as [Hin|Hin]; [exact (Hit _ _ F1 Hin)|auto].
  - exact (Hit _ _ F1 Hin).
Qed.

End Esperas.

(** X12: the loop never queries the store twice in a row. Between two
    queries of a run there is a wait: the fixed one after an error or an
    empty result, or the delay after a contact. *)
Theorem loopDeEnvio_espera_entre_consultas {W : Type} (amb : Ambiente W)
  (n : nat) (w : W) (t1 t2 t3 : list Evento) (r1 r2 : Conclusao Resposta) :
  snd (loopDeEnvio amb n w)
  = (t1 ++ EvSelect r1 :: t2 ++ EvSelect r2 :: t3)%list ->
  exists ms, In (EvDelay ms) t2.
Proof.
  intros Ht.
  destruct (loopDeEnvio amb n w) as [[r w'] t] eqn:H.
  apply loopDeEnvio_forma in H. cbn [snd] in Ht. subst t.
  apply forma_loop_espacadas in H.
  apply consultas_espacadas_depois in H as (b & H).
  cbn [consultas_espacadas] in H. apply andb_prop in H as [_ H].
  exact (consultas_espacadas_entre _ _ _ H).
Qed.

Lemma loopDeEnvio_espera_entre_consultas_witness :
  exists ms,
    In (EvDelay ms)
      [EvFromFilePath imagemPath (Retorna Simulacao.PICANHA);
       EvReadFileSync mensagemPath (Retorna "Oferta da semana");
       EvGetNumberId "551187654321" (Retorna None);
       EvGetNumberId "5511987654321" (Retorna (Some "5511987654321@c.us"));
       EvSendMessage "5511987654321@c.us" Simulacao.PICANHA
         "Oferta da semana" (Retorna tt);
       EvUpdate 7 "2024-05-01T12:00:00.000Z" "Oferta da semana" (Retorna tt);
       EvDelay (JsNumber.Num 20000)].
Proof.
  refine (loopDeEnvio_espera_entre_consultas Simulacao.simulado 2
            (Simulacao.mundo ["5511987654321"] [] [] [Retorna LOTE_ANA])
            [] _ _ _ _ _).
  vm_compute. reflexivity.
Defined.

(** X13: when [Math.random] returns values at least 0 and below 1, every
    wait of a run of the loop is a whole number of milliseconds from 10000
    to 30000: the loop never waits less than ten seconds, nor more than
    thirty, at a time. *)
Theorem loopDeEnvio_esperas_de_10_a_30_segundos {W : Type} (amb : Ambiente W)
  (n : nat) (w : W) (ms : spec_float) :
  (forall w0, JsNumber.unitario (fst (amb_random amb w0)) = true) ->
  In (EvDelay ms) (snd (loopDeEnvio amb n w)) ->
  exists k, ms = JsNumber.Num k /\ (10000 <= k <= 30000)%Z.
Proof.
  intros Hrand Hin.
  destruct (loopDeEnvio amb n w) as [[r w'] t] eqn:H.
  apply loopDeEnvio_forma in H. cbn [snd] in Hin.
  apply (forma_loop_esperas _ _ _ _ _ H); [|exact Hin].
  intros x (w0 & <-). apply Hrand.
Qed.

Lemma loopDeEnvio_esperas_de_10_a_30_segundos_witness :
  exists k, JsNumber.Num 20000 = JsNumber.Num k /\ (10000 <= k <= 30000)%Z.
Proof.
  apply (loopDeEnvio_esperas_de_10_a_30_segundos SIMULADO_MEIO 1
           (Simulacao.mundo ["5511987654321"] [] [] [Retorna LOTE_ANA])).
  - intros w0. reflexivity.
  - vm_compute. do 7 right. left. reflexivity.
Defined.

(** ** The content that is sent *)

Lemma evento_do_lote_sem_carga (imagem : MessageMedia) (legenda : string)
  (contatos : list Contato) (t : list Evento) :
  Forall (evento_do_lote imagem legenda contatos) t -> filter carga t = [].
Proof.
  induction 1 as [|ev t (c & _ & Hev) _ IH]; [reflexivity|].
  destruct ev; cbn in *; solve [exact IH|destruct Hev].
Qed.

(** X14: in an iteration that sends, the image and the caption were loaded
    once, right after the query and before any other call, and every send of
    the iteration carries that image and that caption. *)
Theorem iteracao_envia_o_conteudo_carregado {W : Type} (amb : Ambiente W)
  (w : W) (chat : string) (m : MessageMedia) (cap : string)
  (u : Conclusao unit) :
  In (EvSendMessage chat m cap u) (snd (iteracao amb w)) ->
  exists resp t',
    snd (iteracao amb w)
    = EvSelect (Retorna resp) :: EvFromFilePath imagemPath (Retorna m)
      :: EvReadFileSync mensagemPath (Retorna cap) :: t' /\
    filter carga t' = [].
Proof.
  destruct (iteracao amb w) as [[r w'] t] eqn:H.
  apply iteracao_forma in H. cbn [snd]. intros Hin.
  destruct H as [e|resp Herr|resp Herr Hdata|resp Herr Hdata
                |resp cs e Herr Hdata Hcs|resp cs img e Herr Hdata Hcs
                |resp cs img leg r t Herr Hdata Hcs FL];
    cbn in Hin; try (intuition discriminate).
  destruct Hin as [Hin|[Hin|[Hin|Hin]]]; try discriminate.
  pose proof (forma_lote_eventos _ _ _ _ _ _ FL) as Hev.
  pose proof (evento_do_lote_sem_carga _ _ _ _ Hev) as Hc.
  rewrite Forall_forall in Hev.
  destruct (Hev _ Hin) as (c & _ & -> & -> & _).
  now exists resp, t.
Qed.

Lemma iteracao_envia_o_conteudo_carregado_witness :
  exists resp t',
    snd (iteracao Simulacao.simulado
           (Simulacao.mundo ["5511987654321"] [] [] [Retorna LOTE_ANA]))
    = EvSelect (Retorna resp)
      :: EvFromFilePath imagemPath (Retorna Simulacao.PICANHA)
      :: EvReadFileSync mensagemPath (Retorna "Oferta da semana") :: t' /\
    filter carga t' = [].
Proof.
  apply (iteracao_envia_o_conteudo_carregado Simulacao.simulado
           (Simulacao.mundo ["5511987654321"] [] [] [Retorna LOTE_ANA])
           "5511987654321@c.us" Simulacao.PICANHA "Oferta da semana"
           (Retorna tt)).
  vm_compute. do 5 right. left. reflexivity.
Defined.

(** ** One acknowledged write for each contact *)

Section Aceitas.

Variable sorteavel : spec_float -> Prop.
Variables (imagem : MessageMedia) (legenda : string).

Lemma ids_aceitos_app (t1 t2 : list Evento) :
  ids_aceitos (t1 ++ t2) = (ids_aceitos t1 ++ ids_aceitos t2)%list.
Proof. apply flat_map_app. Qed.

Lemma ids_aceitos_escritas (t : list Evento) :
  ids_aceitos (escritas t) = ids_aceitos t.
Proof.
  unfold escritas, ids_aceitos. induction t as [|ev t IH]; [reflexivity|].
  destruct ev as [| i ts msg [u|e] | | | | |]; cbn; congruence.
Qed.

Lemma ids_aceitos_lancadas (t : list Evento) :
  forallb lancada t = true -> ids_aceitos t = [].
Proof.
  induction t as [|ev t IH]; [reflexivity|]. cbn [forallb].
  intros [Hev Ht]%andb_prop.
  destruct ev as [| i ts msg [u|e] | | | | |]; try discriminate Hev.
  exact (IH Ht).
Qed.

Lemma forma_passo_aceitos (contato : Contato) (r : Conclusao unit)
  (t : list Evento) :
  forma_passo sorteavel imagem legenda contato r t ->
  ids_aceitos t = match r with Retorna _ => [id contato] | Lanca _ => [] end.
Proof.
  intros F. pose proof (forma_passo_escritas _ _ _ _ _ _ F) as H.
  rewrite <- ids_aceitos_escritas. destruct r as [x|e].
  - destruct H as (antes & ts & msg & -> & Ha & _).
    now rewrite ids_aceitos_app, (ids_aceitos_lancadas _ Ha).
  - destruct H as [Ha _]. exact (ids_aceitos_lancadas _ Ha).
Qed.


End Aceitas.


(** ** Progress through a batch *)

(** C1, as amended: for the contacts whose phone is a string, and when the
    write of the diagnostic does not throw. The step of such a contact lets
    no exception out and ends with one write that the store acknowledged, to
    that contact, of the caption or of the diagnostic; every write of the
    step before it threw and was caught. A batch of such contacts is
    processed to its end, with one acknowledged write for each contact, in
    the order of the fetch. *)
Theorem cada_contato_uma_escrita {W : Type} (amb : Ambiente W)
  (imagem : MessageMedia) (legenda : string) :
  (forall i ts w, fst (amb_update amb i ts MENSAGEM_ERRO w) = Retorna tt) ->
  (forall contato tel w,
      telefone contato = VTexto tel ->
      exists w' t antes ts msg,
        processarContato amb imagem legenda contato w = (Retorna tt, w', t) /\
        escritas t
        = (antes ++ [EvUpdate (id contato) ts msg (Retorna tt)])%list /\
        forallb lancada antes = true /\
        (msg = legenda \/ msg = MENSAGEM_ERRO)) /\
  (forall contatos w,
      Forall (fun c => exists tel, telefone c = VTexto tel) contatos ->
      exists w' t,
        processarContatos amb imagem legenda contatos w
        = (Retorna tt, w', t) /\
        ids_aceitos t = map id contatos).
Proof.
  intros Hdiag.
  assert (Hpasso : forall contato tel w,
      telefone contato = VTexto tel ->
      exists w' t,
        processarContato amb imagem legenda contato w = (Retorna tt, w', t)).
  { intros contato tel w Htel.
    rewrite (processarContato_eq _ _ _ _ tel _ Htel).
    destruct (tentarNumeros_retorna amb imagem legenda contato
                (gerarNumerosAlternativos tel) w) as (b & w1 & t1 & ->).
    destruct b.
    - destruct (amb_random amb w1) as [x w2]. eauto.
    - destruct (amb_toISOString amb w1) as [ts w2].
      pose proof (Hdiag (id contato) ts w2) as Hu.
      destruct (amb_update amb _ ts _ w2) as [u w3]. cbn [fst] in Hu.
      subst u. destruct (amb_random amb w3) as [x w4]. eauto. }
  split.
  - intros contato tel w Htel.
    destruct (Hpasso contato tel w Htel) as (w' & t & H).
    pose proof (processarContato_forma _ _ _ _ _ _ _ _ H) as F.
    apply forma_passo_escritas in F.
    destruct F as (antes & ts & msg & He & Ha & Hm).
    exists w', t, antes, ts, msg. auto.
  - intros contatos. induction contatos as [|c resto IH]; intros w Hc.
    + exists w, []. split; reflexivity.
    + inversion Hc as [|c' resto' [tel Htel] Hresto]; subst.
      destruct (Hpasso c tel w Htel) as (w1 & t1 & H1).
      destruct (IH w1 Hresto) as (w2 & t2 & H2 & Hi).
      exists w2, (t1 ++ t2)%list. split.
      * cbn [processarContatos]. unfold bind at 1. now rewrite H1, H2.
      * pose proof (processarContato_forma _ _ _ _ _ _ _ _ H1) as F.
        rewrite ids_aceitos_app, (forma_passo_aceitos _ _ _ _ _ _ F), Hi.
        reflexivity.
Qed.

Lemma cada_contato_uma_escrita_witness :
  (exists w' t antes ts msg,
      processarContato Simulacao.simulado_legenda_falha Simulacao.PICANHA
        "Oi" Simulacao.ANA (Simulacao.mundo ["5511987654321"] [] [] [])
      = (Retorna tt, w', t) /\
      escritas t
      = (antes ++ [EvUpdate (id Simulacao.ANA) ts msg (Retorna tt)])%list /\
      forallb lancada antes = true /\
      (msg = "Oi" \/ msg = MENSAGEM_ERRO)) /\
  (exists w' t,
      processarContatos Simulacao.simulado_legenda_falha Simulacao.PICANHA
        "Oi" [Simulacao.ANA; Simulacao.BIA]
        (Simulacao.mundo ["5511987654321"] [] [] [])
      = (Retorna tt, w', t) /\
      ids_aceitos t = map id [Simulacao.ANA; Simulacao.BIA]).
Proof.
  pose proof (cada_contato_uma_escrita Simulacao.simulado_legenda_falha
                Simulacao.PICANHA "Oi" (fun _ _ _ => eq_refl)) as [H1 H2].
  split.
  - exact (H1 Simulacao.ANA "(11) 98765-4321"
             (Simulacao.mundo ["5511987654321"] [] [] []) eq_refl).
  - apply H2. repeat constructor; eexists; reflexivity.
Defined.

(** What the witness runs: the first candidate has no account, the second
    is sent to, the write of the caption throws and the diagnostic is
    acknowledged. *)
Example run_legenda_falha :
  escritas (snd (processarContato Simulacao.simulado_legenda_falha
                   Simulacao.PICANHA "Oi" Simulacao.ANA
                   (Simulacao.mundo ["5511987654321"] [] [] []))) =
  [EvUpdate 7 "2024-05-01T12:00:00.000Z" "Oi" (Lanca Simulacao.ERRO_REDE);
   EvUpdate 7 "2024-05-01T12:00:00.000Z" MENSAGEM_ERRO (Retorna tt)].
Proof. reflexivity. Qed.

(** C1, as stated, fails on a row whose [telefone] is null: line 75 throws
    a TypeError before the candidate loop, outside every [try]. The step
    throws without a write, also with a store whose writes all resolve, and
    the batch stops there: the contact after that row is not processed. The
    write of the diagnostic is outside the [try] as well: with a store
    whose write throws, the step of a contact whose phone is a string ends
    on that exception. *)
Lemma telefone_nulo_lanca :
  processarContato Simulacao.simulado_sem_falhas Simulacao.PICANHA "Oi"
    Simulacao.CAIO (Simulacao.mundo ["5511987654321"] [] [] [])
  = (Lanca TYPE_ERROR_REPLACE_NULO,
     Simulacao.mundo ["5511987654321"] [] [] [], []) /\
  processarContatos Simulacao.simulado_sem_falhas Simulacao.PICANHA "Oi"
    [Simulacao.CAIO; Simulacao.ANA]
    (Simulacao.mundo ["5511987654321"] [] [] [])
  = (Lanca TYPE_ERROR_REPLACE_NULO,
     Simulacao.mundo ["5511987654321"] [] [] [], []) /\
  processarContato Simulacao.simulado Simulacao.PICANHA "Oi" Simulacao.BIA
    (Simulacao.mundo [] [] [true] [])
  = (Lanca Simulacao.ERRO_REDE, Simulacao.mundo [] [] [] [],
     [EvUpdate 8 "2024-05-01T12:00:00.000Z" MENSAGEM_ERRO
        (Lanca Simulacao.ERRO_REDE)]) /\
  ~ (forall (W : Type) (amb : Ambiente W) (imagem : MessageMedia)
       (legenda : string) (contato : Contato) (w : W),
        exists w' t,
          processarContato amb imagem legenda contato w
          = (Retorna tt, w', t) /\
          List.length (escritas t) = 1%nat).
Proof.
  split; [reflexivity|]. split; [reflexivity|]. split; [reflexivity|].
  intros H.
  destruct (H _ Simulacao.simulado_sem_falhas Simulacao.PICANHA "Oi"
              Simulacao.CAIO (Simulacao.mundo [] [] [] []))
    as (w' & t & Hr & _).
  discriminate Hr.
Qed.

(** ** The normalizer as written is pure *)

Section Pureza.

Import Script.
Context {W : Type} (amb : Ambiente W).

(** The statements of the function, run on a string in any world, return
    the candidates of that string, call no collaborator and leave the world
    as it was. *)
Lemma corpo_gerarNumerosAlternativos_eq (telefone : string) (w : W) :
  chamar amb "telefone" corpo_gerarNumerosAlternativos (JStr telefone) w =
  (Retorna (JArr (map JStr (gerarNumerosAlternativos telefone))), w, []).
Proof.
  unfold chamar, corpo_gerarNumerosAlternativos, gerarNumerosAlternativos.
  cbn -[replace_classe slice slice_de startsWith Nat.ltb String.length
        append].
  unfold bind, ret, throw. cbn -[replace_classe slice slice_de startsWith
                                   Nat.ltb String.length append].
  destruct (String.length (replace_classe nao_digito "" telefone) <? 10)%nat;
    [reflexivity|].
  cbn -[replace_classe slice slice_de startsWith Nat.ltb String.length
        append].
  destruct (startsWith (slice_de (replace_classe nao_digito "" telefone) 2)
              "9"); reflexivity.
Qed.

(** On every value of a column the statements do what the loop's call of
    the function does: on a value that is not a string the first statement
    throws, before anything else is evaluated. *)
Lemma corpo_gerarNumerosAlternativos_de (v : Valor) (w : W) :
  chamar amb "telefone" corpo_gerarNumerosAlternativos (de_valor v) w =
  (match gerarNumerosAlternativosDe v with
   | Retorna l => Retorna (JArr (map JStr l))
   | Lanca e => Lanca e
   end, w, []).
Proof.
  destruct v as [s| | |]; [apply corpo_gerarNumerosAlternativos_eq| | |];
    reflexivity.
Qed.

End Pureza.

(** C8: the normalizer, as its statements are written, is deterministic and
    has no side effect. Two calls in a row on the same raw phone string, in
    any environment and any world, return the same list, the candidates of
    the string; no collaborator is called and the world is left as it was. *)
Theorem gerarNumerosAlternativos_deterministico {W : Type} (amb : Ambiente W)
  (telefone : string) (w : W) :
  (a <- Script.chamar amb "telefone" Script.corpo_gerarNumerosAlternativos
          (Script.JStr telefone) ;;
   b <- Script.chamar amb "telefone" Script.corpo_gerarNumerosAlternativos
          (Script.JStr telefone) ;;
   ret (a, b)) w =
  (Retorna
     (Script.JArr (map Script.JStr (gerarNumerosAlternativos telefone)),
      Script.JArr (map Script.JStr (gerarNumerosAlternativos telefone))),
   w, []).
Proof.
  unfold bind at 1. rewrite corpo_gerarNumerosAlternativos_eq.
  unfold bind at 1. rewrite corpo_gerarNumerosAlternativos_eq.
  reflexivity.
Qed.

(** A function of the same language that is not deterministic: the
    expression of [delayAleatorio] that reads [Math.random]. *)
Example math_random_nao_deterministico :
  fst (fst (Script.chamar Simulacao.simulado "x" [Script.SReturn Script.EMathRandom]
              Script.JUndefined (Simulacao.mundo [] [] [] [])))
  <> fst (fst (Script.chamar Simulacao.simulado "x"
                 [Script.SReturn Script.EMathRandom] Script.JUndefined
                 {| Simulacao.contas := []; Simulacao.bloqueados := [];
                    Simulacao.roteiro_update := [];
                    Simulacao.roteiro_select := [];
                    Simulacao.sorteio := S754_zero false |})).
Proof. discriminate. Qed.
